(** * lcserve gateway: the serving adapter of [lcserve/backend/gateway.py]

    A shallow embedding of [ServingGateway._register_route] and of the two
    handlers it creates, [_create_http_route] and [_create_ws_route].

    Python objects are modelled by the attributes the gateway reads, the
    served function by the tree of calls it makes into its surroundings
    (printing, the process environment, [input], the streaming handlers,
    [yield]), and the process around it by an explicit world that the
    handlers thread through.  pydantic, json and FastAPI are libraries
    outside the repository: what they compute is a parameter of the
    development. *)

From stdpp Require Import gmap strings pretty list fin_maps.
From Stdlib Require Import Ascii String.

Open Scope string_scope.

(** ** Python values and exceptions *)

(** The values that cross the adapter: JSON data, and opaque objects
    known by the name of their class. *)
#[warnings="-register-all"] Inductive pyvalue : Type :=
| VNone
| VBool (b : bool)
| VInt (n : Z)
| VStr (s : string)
| VList (items : list pyvalue)
| VDict (items : list (string * pyvalue))
| VObject (cls : string).

(** A raised exception.  [exn_catchable] says whether the class derives
    from [Exception] (what [except Exception] catches); [exn_text] is
    [str(e)]. *)
Record exn : Type := Exn {
  exn_catchable : bool;
  exn_class : string;
  exn_text : string
}.

Definition AttributeError (attr : string) : exn := Exn true "AttributeError" attr.
Definition IndexError : exn := Exn true "IndexError" "tuple index out of range".
Definition KeyError (key : string) : exn := Exn true "KeyError" ("'" ++ key ++ "'").
Definition TypeError (text : string) : exn := Exn true "TypeError" text.
Definition JSONDecodeError : exn := Exn true "JSONDecodeError" "Expecting value".
Definition ValidationError (detail : string) : exn := Exn true "ValidationError" detail.
(** starlette raises it from a receive once the peer has gone; its text
    is the close code. *)
Definition WebSocketDisconnect : exn := Exn true "WebSocketDisconnect" "1000".

(** ** Annotations *)

(** A type annotation, by the attributes [_get_result_type] and
    [is_type_streaming_response] look at:
    - [name]: [__name__], when the object has one;
    - [origin]: present when the object has [__origin__]; it then holds
      [__args__], when the object has that too;
    - [next]: present when the object has [__next__]; it then holds the
      ['return'] entry of [__next__.__annotations__], when there is one. *)
#[warnings="-register-all"] Inductive annotation : Type :=
| Ann (name : option string)
      (origin : option (option (list annotation)))
      (next : option (option annotation)).

Definition ann_name (a : annotation) : option string :=
  match a with Ann n _ _ => n end.

(** A plain class: no [__origin__], no [__next__]. *)
Definition Class (name : string) : annotation := Ann (Some name) None None.
Definition str : annotation := Class "str".
Definition int : annotation := Class "int".

(** [StreamingResponse = TypeVar('StreamingResponse')] *)
Definition StreamingResponse : annotation := Class "StreamingResponse".

(** [is_type_streaming_response] applied to
    [inspect.signature(func).return_annotation]; a function without a
    return annotation has [inspect.Signature.empty] there, a class whose
    name is [_empty]. *)
Definition is_type_streaming_response (_type : option annotation) : exn + bool :=
  match _type with
  | None => inr (String.eqb "_empty" "StreamingResponse")
  | Some t =>
      match ann_name t with
      | None => inl (AttributeError "__name__")
      | Some n => inr (String.eqb n "StreamingResponse")
      end
  end.

(** ** Functions as the gateway sees them *)

Inductive handle : Type := streaming_handler | async_streaming_handler.

(** The body of a served function, as the calls it makes into its
    surroundings.  [I] is the capability to call the [input] that a
    WebSocket route installs, [Y] the type of what the body may yield (empty
    for a body that is not a generator), [R] what it returns. *)
Inductive prog (I Y R : Type) : Type :=
| Ret (r : R)
| Raise (e : exn)
| Print (line : string) (k : prog I Y R)
| Getenv (key : string) (k : option string -> prog I Y R)
| Setenv (key : string) (val : option string) (k : prog I Y R)
| Input (i : I) (prompt : string) (k : string -> prog I Y R)
| Token (h : handle) (token : string) (k : prog I Y R)
| Yield (y : Y) (k : prog I Y R).

Arguments Ret {I Y R} r.
Arguments Raise {I Y R} e.
Arguments Print {I Y R} line k.
Arguments Getenv {I Y R} key k.
Arguments Setenv {I Y R} key val k.
Arguments Input {I Y R} i prompt k.
Arguments Token {I Y R} h token k.
Arguments Yield {I Y R} y k.

(** What a call of the function returns: a value, or a generator whose
    body has not started. *)
Inductive retval (I : Type) : Type :=
| Value (v : pyvalue)
| Generator (g : prog I pyvalue unit).

Arguments Value {I} v.
Arguments Generator {I} g.

Definition kwargs : Type := list (string * pyvalue).

Definition body (I : Type) : Type := prog I Empty_set (retval I).

(** What registration reads of a function: [__name__], the parameters of
    its signature with their annotations, and the return annotation. *)
Record function : Type := Function {
  fn_name : string;
  fn_params : list (string * annotation);
  fn_return : option annotation
}.

(** ** Result type of the output model *)

Definition _get_result_type (func : function) : exn + annotation :=
  match fn_return func with
  | Some (Ann name origin next as _return) =>
      match origin with
      | Some args =>
          match args with
          | Some (first :: _) => inr first
          | Some [] => inl IndexError
          | None => inl (AttributeError "__args__")
          end
      | None =>
          match next with
          | Some annotations =>
              match annotations with
              | Some r => inr r
              | None => inl (KeyError "return")
              end
          | None => inr _return
          end
      end
  | None => inr str
  end.

(** ** The route registry *)

Inductive RouteType : Type := HTTP | WEBSOCKET.

(** [str.title()] on the characters of an identifier: the first cased
    character of every run of letters is upper-cased, the others
    lower-cased; a character that is not a letter ends the run. *)
Definition is_lower (c : ascii) : bool :=
  (97 <=? nat_of_ascii c)%nat && (nat_of_ascii c <=? 122)%nat.
Definition is_upper (c : ascii) : bool :=
  (65 <=? nat_of_ascii c)%nat && (nat_of_ascii c <=? 90)%nat.
Definition to_upper (c : ascii) : ascii :=
  if is_lower c then ascii_of_nat (nat_of_ascii c - 32) else c.
Definition to_lower (c : ascii) : ascii :=
  if is_upper c then ascii_of_nat (nat_of_ascii c + 32) else c.

Fixpoint title_from (previous_is_cased : bool) (s : string) : string :=
  match s with
  | EmptyString => EmptyString
  | String c rest =>
      if is_lower c then
        String (if previous_is_cased then c else to_upper c) (title_from true rest)
      else if is_upper c then
        String (if previous_is_cased then to_lower c else c) (title_from true rest)
      else String c (title_from false rest)
  end.

Definition title (s : string) : string := title_from false s.

(** [s.replace('_', '')] *)
Fixpoint remove_underscores (s : string) : string :=
  match s with
  | EmptyString => EmptyString
  | String c rest =>
      if Ascii.eqb c "_"%char then remove_underscores rest
      else String c (remove_underscores rest)
  end.

(** [func.__name__.title().replace('_', '')] *)
Definition route_name_of (func : function) : string :=
  remove_underscores (title (fn_name func)).

(** A route of the application, with what the handler created for it
    closes over: the function, the fields of the input model, the result
    type of the output model and the [asyncio.Lock] made during its
    registration (locks are told apart by the order of their creation). *)
Record route : Type := Route {
  route_name : string;
  route_path : string;
  route_type : RouteType;
  route_func : function;
  route_input_fields : list (string * annotation);
  route_result_type : annotation;
  route_lock : nat
}.

(** [self.app.routes], and how many locks the gateway has created. *)
Record registry : Type := Registry {
  routes : list route;
  locks_created : nat
}.

(** [_input_model_fields]: every parameter but [kwargs]. *)
Definition _input_model_fields (func : function) : list (string * annotation) :=
  filter (fun p => negb (String.eqb (fst p) "kwargs")) (fn_params func).

(** [_register_route].  The result is the exception that escapes, or the
    registry afterwards with the lines printed. *)
Definition _register_route (self : registry) (func : function) (route_type : RouteType)
  : exn + (registry * list string) :=
  let _name := route_name_of func in
  if bool_decide (_name ∈ map route_name (routes self)) then
    inr (self, ["Route " ++ _name ++ " already registered. Skipping..."])
  else
    let _ws_recv_lock := locks_created self in
    match _get_result_type func with
    | inl e => inl e
    | inr result_type =>
        inr ({| routes := routes self ++
                  [ {| route_name := _name;
                       route_path := "/" ++ fn_name func;
                       route_type := route_type;
                       route_func := func;
                       route_input_fields := _input_model_fields func;
                       route_result_type := result_type;
                       route_lock := _ws_recv_lock |} ];
                locks_created := S (locks_created self) |}, [])
    end.

Definition _register_http_route (self : registry) (func : function) :=
  _register_route self func HTTP.
Definition _register_ws_route (self : registry) (func : function) :=
  _register_route self func WEBSOCKET.

(** ** The process and the connection *)

(** An instance of the output model: [result], [error], [stdout]. *)
Record Output : Type := mkOutput {
  result : pyvalue;
  error : string;
  stdout : string
}.

(** What the server sends: an output object, or the [{prompt}] object of
    [_HumanInput]. *)
Inductive message : Type :=
| MOutput (o : Output)
| MPrompt (prompt : string).

(** What happens on a connection and to its receive lock, in order. *)
Inductive event : Type :=
| EvAccept
| EvAcquire
| EvRelease
| EvReceive (data : string)
| EvSend (m : message)
| EvClose.

(** A text frame from the client: its text, and what [json.loads] makes
    of it when it is JSON. *)
Record frame : Type := Frame {
  frame_text : string;
  frame_json : option pyvalue
}.

(** The state the handlers read and write: [os.environ], the lines
    written to the current [sys.stdout], the frames the client has sent and
    the server has not yet received (after the last one the client is gone),
    the history of the connection, and whether [_ws_recv_lock] is held. *)
Record world : Type := World {
  environ : gmap string string;
  sys_stdout : list string;
  inbox : list frame;
  wire : list event;
  locked : bool
}.

Definition set_environ (env : gmap string string) (w : world) : world :=
  World env (sys_stdout w) (inbox w) (wire w) (locked w).
Definition set_stdout (out : list string) (w : world) : world :=
  World (environ w) out (inbox w) (wire w) (locked w).
Definition log (e : event) (w : world) : world :=
  World (environ w) (sys_stdout w) (inbox w) (wire w ++ [e]) (locked w).

Definition print (line : string) (w : world) : world :=
  set_stdout (sys_stdout w ++ [line]) w.

Definition setenv (key : string) (val : option string) (w : world) : world :=
  set_environ (match val with
               | Some v => <[key := v]> (environ w)
               | None => delete key (environ w)
               end) w.

(** How a piece of code ends: it returns, an exception escapes it, or it
    waits for a lock that is held. *)
Inductive outcome (R : Type) : Type :=
| Returned (r : R)
| Raised (e : exn)
| Blocked.

Arguments Returned {R} r.
Arguments Raised {R} e.
Arguments Blocked {R}.

Definition send (m : message) (w : world) : world := log (EvSend m) w.
Definition close (w : world) : world := log EvClose w.
Definition accept (w : world) : world := log EvAccept w.

(** [async with _ws_recv_lock]: entering and leaving. *)
Definition acquire (w : world) : option world :=
  if locked w then None
  else Some (World (environ w) (sys_stdout w) (inbox w) (wire w ++ [EvAcquire]) true).
Definition release (w : world) : world :=
  World (environ w) (sys_stdout w) (inbox w) (wire w ++ [EvRelease]) false.

(** [websocket.receive()]: the next frame, or the disconnect. *)
Definition receive (w : world) : outcome frame * world :=
  match inbox w with
  | [] => (Raised WebSocketDisconnect, w)
  | data :: rest =>
      (Returned data,
       World (environ w) (sys_stdout w) rest
             (wire w ++ [EvReceive (frame_text data)]) (locked w))
  end.

(** [websocket.receive_text()] *)
Definition receive_text (w : world) : outcome string * world :=
  match receive w with
  | (Returned data, w) => (Returned (frame_text data), w)
  | (Raised e, w) => (Raised e, w)
  | (Blocked, w) => (Blocked, w)
  end.

(** [websocket.receive_json()] *)
Definition receive_json (w : world) : outcome pyvalue * world :=
  match receive w with
  | (Returned data, w) =>
      match frame_json data with
      | Some _data => (Returned _data, w)
      | None => (Raised JSONDecodeError, w)
      end
  | (Raised e, w) => (Raised e, w)
  | (Blocked, w) => (Blocked, w)
  end.

(** [InputWrapper.__acall__], which [InputWrapper.__call__] runs to
    completion: the function's [input(prompt)]. *)
Definition InputWrapper_acall (__prompt : string) (w : world) : outcome string * world :=
  match acquire w with
  | None => (Blocked, w)
  | Some w =>
      let w := send (MPrompt __prompt) w in
      let w := release w in
      receive_text w
  end.

Definition InputWrapper_call (__prompt : string) (w : world) : outcome string * world :=
  InputWrapper_acall __prompt w.

Definition newline : string := String (ascii_of_nat 10) EmptyString.

(** Modelled from the spec: entering [EnvironmentVarCtxtManager] (its
    module, lcserve/backend/playground/utils/helper.py, is not among the
    sources) applies each key and value of the overrides to the process
    environment. *)
Definition env_apply (envs environ : gmap string string) : gmap string string :=
  map_fold (fun key val env => <[key := val]> env) environ envs.

(** Modelled from the spec: leaving [EnvironmentVarCtxtManager] gives
    every overridden key the value it had before, and deletes it if it had
    none. *)
Definition env_restore (envs prior environ : gmap string string) : gmap string string :=
  map_fold (fun key _ env =>
              match prior !! key with
              | Some old => <[key := old]> env
              | None => delete key env
              end) environ envs.

(** Modelled from the spec: [with EnvironmentVarCtxtManager(envs)] around
    a block.  The overrides are applied, the block runs, and the prior
    values are restored on every way out of the block. *)
Definition EnvironmentVarCtxtManager {A : Type} (envs : gmap string string)
    (block : world -> outcome A * world) (w : world) : outcome A * world :=
  let prior := environ w in
  match block (set_environ (env_apply envs prior) w) with
  | (Blocked, w) => (Blocked, w)
  | (r, w) => (r, set_environ (env_restore envs prior (environ w)) w)
  end.

(** Modelled from the spec: [Capturing] (same module, not among the
    sources).  The text written to the output stream inside the block is
    collected, line by line, instead of reaching the stream, and is handed
    to the code after the block. *)
Definition Capturing {A : Type} (block : world -> outcome A * world) (w : world)
  : outcome (A * list string) * world :=
  let outer := sys_stdout w in
  match block (set_stdout [] w) with
  | (Returned a, w) => (Returned (a, sys_stdout w), set_stdout outer w)
  | (Raised e, w) => (Raised e, set_stdout outer w)
  | (Blocked, w) => (Blocked, w)
  end.

(** ** The handlers *)

Section Handlers.

(** pydantic's validation of a value against the declared type of a
    field: the value as the model stores it, or the detail of the
    failure. *)
Variable validate : annotation -> pyvalue -> string + pyvalue.

(** The input model that [create_model] builds from the fields, applied
    to the keys of a JSON object: the arguments of the function and the
    [envs] mapping, or [str(e)] of the [ValidationError]. *)
Variable input_model :
  list (string * annotation) -> list (string * pyvalue) ->
  string + (gmap string pyvalue * gmap string string).

(** [output_model(result=..., error=..., stdout=...)].  [error] and
    [stdout] are declared [str] and are given strings; the type of
    [result] is the one [_get_result_type] found. *)
Definition output_model (result_type : annotation)
    (result : pyvalue) (error stdout : string) : exn + Output :=
  match validate result_type result with
  | inl detail => inl (ValidationError detail)
  | inr v => inr (mkOutput v error stdout)
  end.

(** [AsyncStreamingWebsocketCallbackHandler.on_llm_new_token], which the
    method of [StreamingWebsocketCallbackHandler] runs to completion. *)
Definition on_llm_new_token (result_type : annotation) (token : string) (w : world)
  : outcome unit * world :=
  let w := print ("Got token " ++ token) w in
  match output_model result_type (VStr token) "" "" with
  | inl e => (Raised e, w)
  | inr o => (Returned tt, send (MOutput o) w)
  end.

Definition handle_key (h : handle) : string :=
  match h with
  | streaming_handler => "streaming_handler"
  | async_streaming_handler => "async_streaming_handler"
  end.

(** Running a body.  [handlers] says whether the adapter passed the two
    streaming handlers among the keyword arguments (a body that looks one
    up when none was passed gets a [KeyError]); [on_yield] is what the
    loop that iterates a generator does with each item. *)
Fixpoint run {I Y R : Type} (result_type : annotation) (handlers : bool)
    (on_yield : Y -> world -> outcome unit * world)
    (p : prog I Y R) (w : world) : outcome R * world :=
  match p with
  | Ret r => (Returned r, w)
  | Raise e => (Raised e, w)
  | Print line k => run result_type handlers on_yield k (print line w)
  | Getenv key k => run result_type handlers on_yield (k (environ w !! key)) w
  | Setenv key val k => run result_type handlers on_yield k (setenv key val w)
  | Input _ prompt k =>
      match InputWrapper_call prompt w with
      | (Returned answer, w) => run result_type handlers on_yield (k answer) w
      | (Raised e, w) => (Raised e, w)
      | (Blocked, w) => (Blocked, w)
      end
  | Token h token k =>
      if handlers then
        match on_llm_new_token result_type token w with
        | (Returned _, w) => run result_type handlers on_yield k w
        | (Raised e, w) => (Raised e, w)
        | (Blocked, w) => (Blocked, w)
        end
      else (Raised (KeyError (handle_key h)), w)
  | Yield y k =>
      match on_yield y w with
      | (Returned _, w) => run result_type handlers on_yield k w
      | (Raised e, w) => (Raised e, w)
      | (Blocked, w) => (Blocked, w)
      end
  end.

(** A body that is not a generator yields nothing. *)
Definition no_yield (y : Empty_set) (w : world) : outcome unit * world :=
  match y with end.

(** The value a call leaves in [output]: a generator is an object like
    any other there. *)
Definition value_of {I : Type} (r : retval I) : pyvalue :=
  match r with
  | Value v => v
  | Generator _ => VObject "generator"
  end.

(** [_create_http_route], called by FastAPI with the validated body:
    the arguments of the function and the [envs] mapping. *)
Definition _create_http_route (result_type : annotation)
    (func : gmap string pyvalue -> body Empty_set)
    (input_data : gmap string pyvalue) (_envs : gmap string string)
  : world -> outcome Output * world :=
  EnvironmentVarCtxtManager _envs (fun w =>
    let '(captured, w) :=
      Capturing (fun w =>
        match run result_type false no_yield (func input_data) w with
        | (Returned output, w) => (Returned (value_of output, ""), w)
        | (Raised e, w) =>
            if exn_catchable e then
              (Returned (VStr "", exn_text e),
               print ("Got an exception: " ++ exn_text e) w)
            else (Raised e, w)
        | (Blocked, w) => (Blocked, w)
        end) w in
    match captured with
    | Returned (output, error, stdout) =>
        let w := if String.eqb error "" then w else print ("Error: " ++ error) w in
        match output_model result_type output error (String.concat newline stdout) with
        | inl e => (Raised e, w)
        | inr o => (Returned o, w)
        end
    | Raised e => (Raised e, w)
    | Blocked => (Blocked, w)
    end).

(** What the [for] loop over a generator does with one item. *)
Definition send_stream (result_type : annotation) (_stream : pyvalue) (w : world)
  : outcome unit * world :=
  match output_model result_type _stream "" "" with
  | inl e => (Raised e, w)
  | inr o => (Returned tt, send (MOutput o) w)
  end.

(** The two handler objects added to the keyword arguments. *)
Definition with_handlers (_input_data_dict : gmap string pyvalue) : gmap string pyvalue :=
  <[ "async_streaming_handler" := VObject "AsyncStreamingWebsocketCallbackHandler" ]>
    (<[ "streaming_handler" := VObject "StreamingWebsocketCallbackHandler" ]>
       _input_data_dict).

(** The body of [with EnvironmentVarCtxtManager(_envs)] in
    [_create_ws_route].  It returns [true] when the loop is left by
    [break]. *)
Definition ws_dispatch (result_type : annotation) (return_annotation : option annotation)
    (func : gmap string pyvalue -> body unit)
    (_input_data : gmap string pyvalue) (_envs : gmap string string)
  : world -> outcome bool * world :=
  EnvironmentVarCtxtManager _envs (fun w =>
    let '(tried, w) :=
      match is_type_streaming_response return_annotation with
      | inl e => (Raised e, w)
      | inr true =>
          match run result_type true no_yield (func (with_handlers _input_data)) w with
          | (Returned _, w) => (Returned false, w)
          | (Raised e, w) => (Raised e, w)
          | (Blocked, w) => (Blocked, w)
          end
      | inr false =>
          match run result_type false no_yield (func _input_data) w with
          | (Returned (Generator _ws_serving_output), w) =>
              match run result_type false (send_stream result_type) _ws_serving_output w with
              | (Returned _, w) => (Returned true, close w)
              | (Raised e, w) => (Raised e, w)
              | (Blocked, w) => (Blocked, w)
              end
          | (Returned (Value _ws_serving_output), w) =>
              match output_model result_type _ws_serving_output "" "" with
              | inl e => (Raised e, w)
              | inr o => (Returned false, send (MOutput o) w)
              end
          | (Raised e, w) => (Raised e, w)
          | (Blocked, w) => (Blocked, w)
          end
      end in
    match tried with
    | Returned broke => (Returned broke, w)
    | Raised e =>
        if exn_catchable e then
          let w := print ("Got an exception: " ++ exn_text e) w in
          let w := if String.eqb (exn_text e) "" then w
                   else print ("Error: " ++ exn_text e) w in
          (Returned false, w)
        else (Raised e, w)
    | Blocked => (Blocked, w)
    end).

(** One turn of the [while True] loop of [_create_ws_route]. *)
Inductive turn : Type :=
| Continue (w : world)
| Break (w : world)
| Escaped (e : exn) (w : world)
| Waiting (w : world).

(** What a turn does with the JSON value it has received. *)
Definition ws_serve (r : route)
    (func : gmap string pyvalue -> body unit) (_data : pyvalue) (w : world) : turn :=
  match _data with
  | VDict items =>
      match input_model (route_input_fields r) items with
      | inl detail =>
          let w := print ("Got an exception: " ++ detail) w in
          match output_model (route_result_type r) (VStr "") detail "" with
          | inl e => Escaped e w
          | inr o => Continue (send (MOutput o) w)
          end
      | inr (_input_data, _envs) =>
          match ws_dispatch (route_result_type r) (fn_return (route_func r))
                  func _input_data _envs w with
          | (Returned true, w) => Break w
          | (Returned false, w) => Continue w
          | (Raised e, w) => Escaped e w
          | (Blocked, w) => Waiting w
          end
      end
  | _ => Escaped (TypeError "argument after ** must be a mapping") w
  end.

Definition ws_turn (r : route)
    (func : gmap string pyvalue -> body unit) (w : world) : turn :=
  match acquire w with
  | None => Waiting w
  | Some w =>
      match receive_json w with
      | (Returned _data, w) => ws_serve r func _data (release w)
      | (Raised e, w) => Escaped e (release w)
      | (Blocked, w) => Waiting w
      end
  end.

Definition turn_world (t : turn) : world :=
  match t with
  | Continue w | Break w | Escaped _ w | Waiting w => w
  end.

(** How a session ends. *)
Inductive session : Type :=
| Finished (w : world)
| Crashed (e : exn) (w : world)
| Hung (w : world)
| OutOfFuel (w : world).

Fixpoint ws_loop (fuel : nat) (r : route)
    (func : gmap string pyvalue -> body unit) (w : world) : session :=
  match fuel with
  | O => OutOfFuel w
  | S fuel =>
      match ws_turn r func w with
      | Continue w => ws_loop fuel r func w
      | Break w => Finished w
      | Escaped e w =>
          if String.eqb (exn_class e) "WebSocketDisconnect" then
            Finished (print "Client disconnected" w)
          else Crashed e w
      | Waiting w => Hung w
      end
  end.

(** [_create_ws_route]: every turn that continues has received a frame,
    so one turn more than there are frames is enough. *)
Definition _create_ws_route (r : route)
    (func : gmap string pyvalue -> body unit) (w : world) : session :=
  ws_loop (S (List.length (inbox w))) r func (accept w).

End Handlers.

(** ** A validator for running the handlers on examples *)

(** Field validation after pydantic 1.x, for the annotations of the
    examples: a [str] field takes a string, and the text of a number; an
    [int] field takes an integer, and a string of decimal digits with an
    optional sign; every other annotation is treated like [Any], which
    takes every value as it is. *)
Module Pydantic.

Definition digit (c : ascii) : option Z :=
  let n := nat_of_ascii c in
  if (48 <=? n)%nat && (n <=? 57)%nat then Some (Z.of_nat (n - 48)) else None.

Fixpoint digits (acc : Z) (s : string) : option Z :=
  match s with
  | EmptyString => Some acc
  | String c rest =>
      match digit c with
      | Some d => digits (10 * acc + d) rest
      | None => None
      end
  end.

Definition parse_int (s : string) : option Z :=
  match s with
  | EmptyString => None
  | String c rest =>
      if Ascii.eqb c "-"%char then
        match rest with
        | EmptyString => None
        | _ => Z.opp <$> digits 0 rest
        end
      else if Ascii.eqb c "+"%char then
        match rest with
        | EmptyString => None
        | _ => digits 0 rest
        end
      else digits 0 s
  end.

Definition validate (t : annotation) (v : pyvalue) : string + pyvalue :=
  match ann_name t with
  | Some name =>
      if String.eqb name "str" then
        match v with
        | VStr _ => inr v
        | VInt n => inr (VStr (pretty n))
        | VBool b => inr (VStr (if b then "True" else "False"))
        | _ => inl "str type expected"
        end
      else if String.eqb name "int" then
        match v with
        | VInt _ => inr v
        | VBool b => inr (VInt (if b then 1 else 0))
        | VStr s =>
            match parse_int s with
            | Some n => inr (VInt n)
            | None => inl "value is not a valid integer"
            end
        | _ => inl "value is not a valid integer"
        end
      else inr v
  | None => inr v
  end.

Definition item (key : string) (items : list (string * pyvalue)) : option pyvalue :=
  snd <$> List.find (fun kv => String.eqb (fst kv) key) items.

(** The fields of the function, each required. *)
Fixpoint fields_of (fields : list (string * annotation)) (items : list (string * pyvalue))
  : string + gmap string pyvalue :=
  match fields with
  | [] => inr ∅
  | (name, t) :: rest =>
      match item name items with
      | None => inl (name ++ ": field required")
      | Some v =>
          match validate t v with
          | inl detail => inl (name ++ ": " ++ detail)
          | inr v =>
              match fields_of rest items with
              | inl detail => inl detail
              | inr data => inr (<[name := v]> data)
              end
          end
      end
  end.

(** [envs: Dict[str, str]], empty by default. *)
Fixpoint envs_of (items : list (string * pyvalue)) : string + gmap string string :=
  match items with
  | [] => inr ∅
  | (key, VStr val) :: rest =>
      match envs_of rest with
      | inl detail => inl detail
      | inr envs => inr (<[key := val]> envs)
      end
  | (key, _) :: _ => inl ("envs -> " ++ key ++ ": str type expected")
  end.

Definition input_model (fields : list (string * annotation))
    (items : list (string * pyvalue))
  : string + (gmap string pyvalue * gmap string string) :=
  match fields_of fields items with
  | inl detail => inl detail
  | inr data =>
      match item "envs" items with
      | None => inr (data, ∅)
      | Some (VDict envs) =>
          match envs_of envs with
          | inl detail => inl detail
          | inr envs => inr (data, envs)
          end
      | Some _ => inl "envs: value is not a valid dict"
      end
  end.

End Pydantic.

(** ** Bodies that leave the environment alone *)

(** [reads_only ret p]: the body [p] never assigns or deletes an
    environment variable, and what it returns satisfies [ret]. *)
Fixpoint reads_only {I Y R : Type} (ret : R -> Prop) (p : prog I Y R) : Prop :=
  match p with
  | Ret r => ret r
  | Raise _ => True
  | Print _ k => reads_only ret k
  | Getenv _ k => forall val, reads_only ret (k val)
  | Setenv _ _ _ => False
  | Input _ _ k => forall answer, reads_only ret (k answer)
  | Token _ _ k => reads_only ret k
  | Yield _ k => reads_only ret k
  end.

(** The same for a function: neither its body nor the generator it may
    return writes the environment. *)
Definition reads_only_func {I : Type} (func : gmap string pyvalue -> body I) : Prop :=
  forall data,
    reads_only (fun r => match r with
                         | Value _ => True
                         | Generator g => reads_only (fun _ => True) g
                         end) (func data).

(** The call of the function inside [_create_http_route]: under the
    overrides, with the output stream captured from empty. *)
Definition http_call (validate : annotation -> pyvalue -> string + pyvalue)
    (result_type : annotation) (func : gmap string pyvalue -> body Empty_set)
    (input_data : gmap string pyvalue) (_envs : gmap string string) (w : world)
  : outcome (retval Empty_set) * world :=
  run validate result_type false no_yield (func input_data)
      (set_stdout [] (set_environ (env_apply _envs (environ w)) w)).

(** A generator that yields the given items and stops. *)
Fixpoint yield_all {I : Type} (items : list pyvalue) : prog I pyvalue unit :=
  match items with
  | [] => Ret tt
  | x :: rest => Yield x (yield_all rest)
  end.

(** A body that pushes the given tokens, each through the handler named
    with it, and returns. *)
Fixpoint push_all {I Y R : Type} (calls : list (handle * string)) (r : R) : prog I Y R :=
  match calls with
  | [] => Ret r
  | (h, token) :: rest => Token h token (push_all rest r)
  end.

(** Whether every receive in a history happens while the lock is held;
    [held] is the state of the lock before the history. *)
Fixpoint receives_hold_lock (held : bool) (history : list event) : bool :=
  match history with
  | [] => true
  | EvAcquire :: rest => receives_hold_lock true rest
  | EvRelease :: rest => receives_hold_lock false rest
  | EvReceive _ :: rest => held && receives_hold_lock held rest
  | _ :: rest => receives_hold_lock held rest
  end.

(** ** Connections *)

(** The state of one WebSocket session: the client, the route that
    serves it, and the lock its receives go through, which is the lock the
    route's handler closes over. *)
Record session_state : Type := Session {
  session_client : nat;
  session_route : route;
  session_lock : nat
}.

(** A client connects to a path: the first WebSocket route with that path
    serves it.  The registry is as it was. *)
Definition websocket_connect (self : registry) (path : string) (client : nat)
  : option (registry * session_state) :=
  match List.find (fun r => String.eqb (route_path r) path &&
                           match route_type r with
                           | WEBSOCKET => true
                           | HTTP => false
                           end) (routes self) with
  | Some r => Some (self, Session client r (route_lock r))
  | None => None
  end.

(** A registry in which the locks of the routes are all different and
    all among the locks created. *)
Definition locks_distinct (self : registry) : Prop :=
  NoDup (map route_lock (routes self)) /\
  Forall (fun r => route_lock r < locks_created self) (routes self).

(** ** Examples *)

(** The routes of a registry that carry a given name. *)
Definition routes_named (name : string) (self : registry) : list route :=
  List.filter (fun r => String.eqb (route_name r) name) (routes self).

(** What [_register_route] prints when it skips a function. *)
Definition skipped (func : function) : list string :=
  ["Route " ++ route_name_of func ++ " already registered. Skipping..."].

(** A gateway before any function is registered. *)
Definition no_routes : registry := Registry [] 0.

(** [collections.abc.Iterator] used bare as an annotation: a class with a
    [__next__] that carries no annotations. *)
Definition bare_Iterator : annotation := Ann (Some "Iterator") None (Some None).

(** [typing.Iterator[str]] *)
Definition Iterator_of (item : annotation) : annotation :=
  Ann (Some "Iterator") (Some (Some [item])) None.

(** [def numbers() -> collections.abc.Iterator] *)
Definition numbers : function := Function "numbers" [] (Some bare_Iterator).

(** [def chat(question: str) -> str] *)
Definition chat : function := Function "chat" [("question", str)] (Some str).

(** [def parse(text: str) -> int: return int(text)] *)
Definition parse : function := Function "parse" [("text", str)] (Some int).

Definition parse_body {I : Type} (kw : gmap string pyvalue) : body I :=
  match kw !! "text" with
  | Some (VStr text) =>
      match Pydantic.parse_int text with
      | Some n => Ret (Value (VInt n))
      | None =>
          Raise (Exn true "ValueError"
                     ("invalid literal for int() with base 10: '" ++ text ++ "'"))
      end
  | _ => Raise (TypeError "parse() missing 1 required positional argument: 'text'")
  end.

(** The route that registration makes for [parse] on a fresh gateway. *)
Definition parse_route (rt : RouteType) : route :=
  Route "Parse" "/parse" rt parse [("text", str)] int 0.

(** The registry after an attempt to register: as [_register_route] left
    it, or unchanged when the attempt raised. *)
Definition registered (self : registry) (func : function) (rt : RouteType) : registry :=
  match _register_route self func rt with
  | inr (self', _) => self'
  | inl _ => self
  end.

(** A gateway that serves [chat] over WebSocket. *)
Definition chat_gateway : registry := registered no_routes chat WEBSOCKET.

(** A process with an empty environment, nothing printed, and a client
    that has sent the given frames. *)
Definition client_sent (frames : list frame) : world := World ∅ [] frames [] false.

(** The JSON object [{}] as a frame. *)
Definition empty_object : frame := Frame "{}" (Some (VDict [])).

(** The world after a turn has taken the frame [data] under the lock,
    [rest] being the frames still to come. *)
Definition after_receive (data : frame) (rest : list frame) (w : world) : world :=
  World (environ w) (sys_stdout w) rest
        (wire w ++ [EvAcquire; EvReceive (frame_text data); EvRelease]) false.

(** The output message for a result, with no error and no captured
    output. *)
Definition output_of (v : pyvalue) : event := EvSend (MOutput (mkOutput v "" "")).

(** [def hitl(question: str) -> str], asking for a name in the middle of
    its work. *)
Definition hitl : function := Function "hitl" [] (Some str).

Definition hitl_body (kw : gmap string pyvalue) : body unit :=
  Input tt "What is your name?" (fun answer => Ret (Value (VStr ("hello, " ++ answer)))).

Definition hitl_route : route := Route "Hitl" "/hitl" WEBSOCKET hitl [] str 0.

(** [def letters() -> Iterator[str]], a generator of three strings. *)
Definition letters : function := Function "letters" [] (Some (Iterator_of str)).

Definition letters_body (kw : gmap string pyvalue) : body unit :=
  Ret (Generator (yield_all [VStr "a"; VStr "b"; VStr "c"])).

Definition letters_route : route :=
  Route "Letters" "/letters" WEBSOCKET letters [] str 0.

(** [tell], declared with [**kwargs] alone and [-> StreamingResponse]:
    it pushes two tokens, one through each handler, and returns a value of
    its own. *)
Definition tell : function :=
  Function "tell" [("kwargs", Class "_empty")] (Some StreamingResponse).

Definition tell_body (kw : gmap string pyvalue) : body unit :=
  push_all [(streaming_handler, "Hel"); (async_streaming_handler, "lo")]
           (Value (VStr "done")).

Definition tell_route : route :=
  Route "Tell" "/tell" WEBSOCKET tell [] StreamingResponse 0.

(** [def whoami() -> str], answering with the [USER] of the environment. *)
Definition whoami_body {I : Type} (kw : gmap string pyvalue) : body I :=
  Getenv "USER" (fun user =>
    match user with
    | Some name => Ret (Value (VStr name))
    | None => Raise (KeyError "USER")
    end).

(** A process with a [HOME] and no [USER]. *)
Definition at_home : world := World {[ "HOME" := "/root" ]} [] [] [] false.

(** [def shout() -> str], printing two lines before it fails. *)
Definition shout_body (kw : gmap string pyvalue) : body Empty_set :=
  Print "one" (Print "two" (Raise (Exn true "RuntimeError" "no voice"))).

(** ** Loading the served modules *)

(** A function found in a module by [inspect.getmembers], with the two
    attributes that the [serving] decorator may have set on it. *)
Record member : Type := Member {
  member_func : function;
  member_serving : bool;
  member_ws_serving : bool
}.

(** The loop over the members of an imported module, shared by
    [_register_mod] and [_register_file]: a function with [__serving__]
    becomes an HTTP route, otherwise one with [__ws_serving__] a WebSocket
    route.  The result is the registry as the loop left it, the lines
    printed, and the exception that stopped the loop, if any. *)
Fixpoint register_members (self : registry) (members : list member)
  : registry * list string * option exn :=
  match members with
  | [] => (self, [], None)
  | m :: rest =>
      if member_serving m then
        match _register_http_route self (member_func m) with
        | inl e => (self, [], Some e)
        | inr (self, printed) =>
            let '(self, more, raised) := register_members self rest in
            (self, (printed ++ more)%list, raised)
        end
      else if member_ws_serving m then
        match _register_ws_route self (member_func m) with
        | inl e => (self, [], Some e)
        | inr (self, printed) =>
            let '(self, more, raised) := register_members self rest in
            (self, (printed ++ more)%list, raised)
        end
      else register_members self rest
  end.

(** [_register_mod]: [mod_] is the name of the module, [imported] what
    [import_module] gives for it, the members of the module or the
    exception of the import.  Only [ModuleNotFoundError] is caught. *)
Definition _register_mod (self : registry) (mod_ : string) (imported : exn + list member)
  : registry * list string * option exn :=
  let '(self, printed, raised) :=
    match imported with
    | inl e => (self, [], Some e)
    | inr members => register_members self members
    end in
  match raised with
  | Some e =>
      if String.eqb (exn_class e) "ModuleNotFoundError" then
        (self, (printed ++ [("Unable to import module: " ++ mod_)%string])%list, None)
      else (self, printed, Some e)
  | None => (self, printed, None)
  end.





(** [ServingGateway._fix_sys_path]: [cwd] is [os.getcwd()], [exists] is
    [Path(APPDIR).exists()]; the result is [sys.path] afterwards. *)
Definition _fix_sys_path (cwd APPDIR : string) (exists_ : bool) (sys_path : list string)
  : list string :=
  let sys_path :=
    if bool_decide (cwd ∈ sys_path) then sys_path else (sys_path ++ [cwd])%list in
  if exists_ && negb (bool_decide (APPDIR ∈ sys_path)) then (sys_path ++ [APPDIR])%list
  else sys_path.

(** The lower-case form of a name. *)
Fixpoint lower (s : string) : string :=
  match s with
  | EmptyString => EmptyString
  | String c rest => String (to_lower c) (lower rest)
  end.

(** ** Dictionaries of JSON values *)





(** ** The composite gateway behind nginx *)

Module LangchainAgentGateway.

Inductive GatewayProtocolType : Type := GRPC | HTTP | WEBSOCKET.

Definition is_http (p : GatewayProtocolType) : bool :=
  match p with HTTP => true | _ => false end.

(** [protocol.index(GatewayProtocolType.HTTP)] *)
Fixpoint index_http (protocol : list GatewayProtocolType) : option nat :=
  match protocol with
  | [] => None
  | p :: rest => if is_http p then Some 0 else S <$> index_http rest
  end.

(** The first lines of [__init__]: the ports of [runtime_args] after
    them, or the exception raised. *)
Definition move_http_port (protocol : list GatewayProtocolType) (port : list Z)
  : exn + list Z :=
  match index_http protocol with
  | None => inl (Exn true "ValueError" "<GatewayProtocolType.HTTP: 1> is not in list")
  | Some http_idx =>
      match port !! http_idx with
      | None => inl (Exn true "IndexError" "list index out of range")
      | Some http_port =>
          if bool_decide (http_port ≠ 8081%Z) then
            inl (Exn true "ValueError"
                     ("Please, let http port (" ++ pretty http_port ++
                      ") be 8081 for nginx to work"))
          else inr (<[http_idx := 8082%Z]> port)
      end
  end.


Section Commands.

(** [run_cmd]: what the n-th command run by the gateway writes to its
    output and to its error stream. *)
Variable run_cmd : nat -> list string -> string * string.




End Commands.

End LangchainAgentGateway.

(** ** Merging the documents of several executors *)

Module ChainExecutor.

(** A document: its id and its tags. *)
Record Document : Type := Doc {
  doc_id : string;
  doc_tags : gmap string pyvalue
}.

(** The ids of the documents of an array, in order. *)
Definition ids (da : list Document) : list string := map doc_id da.

(** One step of the inner loop of [_handle_merge]: the tags of a document
    whose id is already in [da] are merged into the document that is there,
    any other document is appended. *)
Fixpoint merge_doc (doc : Document) (da : list Document) : list Document :=
  match da with
  | [] => [doc]
  | d :: rest =>
      if String.eqb (doc_id d) (doc_id doc) then
        Doc (doc_id d) (doc_tags doc ∪ doc_tags d) :: rest
      else d :: merge_doc doc rest
  end.

(** [_handle_merge], on the arrays of [docs_map] in the order of its
    items. *)
Definition _handle_merge (docs_map : list (string * list Document)) : list Document :=
  fold_left (fun da kv => fold_left (fun da doc => merge_doc doc da) (snd kv) da)
            docs_map [].

End ChainExecutor.

(** ** More examples *)

(** Two functions whose names differ in the case of one letter. *)
Definition myfunc : function := Function "myfunc" [] None.
Definition myFunc : function := Function "myFunc" [] None.


(** The members of a file: [chat] marked for WebSocket, [numbers] marked
    for HTTP, [parse] marked for HTTP, and [myfunc] not marked. *)
Definition app_members : list member :=
  [Member chat false true; Member numbers true false;
   Member parse true false; Member myfunc false false].


(** The double quote, and the frame of the JSON object with the one key
    [text] and a string as its value. *)
Definition quote : string := String (ascii_of_nat 34) EmptyString.

Definition text_request (text : string) : frame :=
  Frame ("{" ++ quote ++ "text" ++ quote ++ ": " ++ quote ++ text ++ quote ++ "}")
        (Some (VDict [("text", VStr text)])).

(** [typing.Iterator[str]] as it is where typing's aliases have no
    [__name__]. *)
Definition unnamed_Iterator_of (item : annotation) : annotation :=
  Ann None (Some (Some [item])) None.

Definition unnamed_letters : function :=
  Function "letters" [] (Some (unnamed_Iterator_of str)).

Definition unnamed_letters_route : route :=
  Route "Letters" "/letters" WEBSOCKET unnamed_letters [] str 0.

(** [def mixed() -> Iterator[int]], a generator whose second item is no
    integer. *)
Definition mixed : function := Function "mixed" [] (Some (Iterator_of int)).

Definition mixed_body (kw : gmap string pyvalue) : body unit :=
  Ret (Generator (yield_all ([VInt 1] ++ VStr "x" :: [VInt 3]))).

Definition mixed_route : route := Route "Mixed" "/mixed" WEBSOCKET mixed [] int 0.

Definition chat_route : route :=
  Route "Chat" "/chat" WEBSOCKET chat [("question", str)] str 0.


(** The documents of two executors, with one id in common; and of two
    executors with no id in common. *)
Definition shared_docs : list (string * list ChainExecutor.Document) :=
  [("first", [ChainExecutor.Doc "1" ∅; ChainExecutor.Doc "2" ∅]);
   ("second", [ChainExecutor.Doc "1" {[ "result" := VStr "done" ]}])].

Definition separate_docs : list (string * list ChainExecutor.Document) :=
  [("first", [ChainExecutor.Doc "1" ∅]); ("second", [ChainExecutor.Doc "2" ∅])].

(** * Properties *)

(** ** The environment guard *)

Lemma env_apply_lookup (envs environ : gmap string string) (key : string) :
  env_apply envs environ !! key =
  match envs !! key with
  | Some val => Some val
  | None => environ !! key
  end.
Proof.
  unfold env_apply.
  apply (map_fold_weak_ind
           (fun env (m : gmap string string) =>
              env !! key = match m !! key with
                           | Some val => Some val
                           | None => environ !! key
                           end)).
  - by rewrite lookup_empty.
  - intros i x m env Hfresh IH.
    destruct (decide (i = key)) as [->|Hne].
    + by rewrite !lookup_insert_eq.
    + by rewrite !lookup_insert_ne.
Qed.

Lemma env_restore_lookup (envs prior environ : gmap string string) (key : string) :
  env_restore envs prior environ !! key =
  match envs !! key with
  | Some _ => prior !! key
  | None => environ !! key
  end.
Proof.
  unfold env_restore.
  apply (map_fold_weak_ind
           (fun env (m : gmap string string) =>
              env !! key = match m !! key with
                           | Some _ => prior !! key
                           | None => environ !! key
                           end)).
  - by rewrite lookup_empty.
  - intros i x m env Hfresh IH.
    destruct (decide (i = key)) as [->|Hne].
    + rewrite lookup_insert_eq.
      destruct (prior !! key) as [old|] eqn:Hold.
      * by rewrite lookup_insert_eq.
      * by rewrite lookup_delete_eq.
    + rewrite lookup_insert_ne by done.
      destruct (prior !! i) as [old|].
      * by rewrite lookup_insert_ne.
      * by rewrite lookup_delete_ne.
Qed.

(** Leaving undoes entering. *)
Lemma env_restore_apply (envs prior : gmap string string) :
  env_restore envs prior (env_apply envs prior) = prior.
Proof.
  apply map_eq. intros key.
  rewrite env_restore_lookup, env_apply_lookup.
  by destruct (envs !! key).
Qed.

(** The guard restores on every way out of its block, and on no other
    key does it change what the block left. *)
Lemma guard_restores {A : Type} (envs : gmap string string)
    (block : world -> outcome A * world) (w : world) :
  let w_in := set_environ (env_apply envs (environ w)) w in
  fst (EnvironmentVarCtxtManager envs block w) <> Blocked ->
  fst (EnvironmentVarCtxtManager envs block w) = fst (block w_in) /\
  forall key,
    environ (snd (EnvironmentVarCtxtManager envs block w)) !! key =
    match envs !! key with
    | Some _ => environ w !! key
    | None => environ (snd (block w_in)) !! key
    end.
Proof.
  intros w_in. unfold EnvironmentVarCtxtManager. fold w_in.
  destruct (block w_in) as [[r|e|] w']; simpl; intros Hexit; try done.
  - split; [done|]. intros key. apply env_restore_lookup.
  - split; [done|]. intros key. apply env_restore_lookup.
Qed.

(** ** Running a body *)

Section RunFacts.

Variable validate : annotation -> pyvalue -> string + pyvalue.

Lemma on_llm_new_token_returns rt token w :
  fst (on_llm_new_token validate rt token w) <> Blocked.
Proof.
  unfold on_llm_new_token. by destruct (output_model validate rt (VStr token) "" "").
Qed.

Lemma on_llm_new_token_keeps rt token w :
  let w' := snd (on_llm_new_token validate rt token w) in
  environ w' = environ w /\ inbox w' = inbox w /\ locked w' = locked w.
Proof.
  unfold on_llm_new_token. by destruct (output_model validate rt (VStr token) "" "").
Qed.

Lemma send_stream_keeps rt item w :
  let w' := snd (send_stream validate rt item w) in
  fst (send_stream validate rt item w) <> Blocked /\
  environ w' = environ w /\ inbox w' = inbox w /\ locked w' = locked w.
Proof.
  unfold send_stream. by destruct (output_model validate rt item "" "").
Qed.

Lemma InputWrapper_call_keeps prompt w :
  let w' := snd (InputWrapper_call prompt w) in
  environ w' = environ w /\ List.length (inbox w') <= List.length (inbox w).
Proof.
  unfold InputWrapper_call, InputWrapper_acall, acquire.
  destruct (locked w); simpl; [done|].
  unfold receive_text, receive; simpl.
  destruct (inbox w); simpl; [done|]. split; [done|lia].
Qed.

(** With the lock free, [input] does not wait, and leaves the lock free. *)
Lemma InputWrapper_call_free prompt w :
  locked w = false ->
  fst (InputWrapper_call prompt w) <> Blocked /\
  locked (snd (InputWrapper_call prompt w)) = false.
Proof.
  intros Hfree. unfold InputWrapper_call, InputWrapper_acall, acquire.
  rewrite Hfree. unfold receive_text, receive; simpl.
  by destruct (inbox w).
Qed.

(** A body that only reads the environment leaves it as it was. *)
Lemma run_reads_only {I Y R : Type} rt handlers
    (on_yield : Y -> world -> outcome unit * world) (ret : R -> Prop)
    (p : prog I Y R) :
  (forall y w, environ (snd (on_yield y w)) = environ w) ->
  reads_only ret p ->
  forall w,
    environ (snd (run validate rt handlers on_yield p w)) = environ w /\
    forall r, fst (run validate rt handlers on_yield p w) = Returned r -> ret r.
Proof.
  intros Hyield. induction p as [r|e|line k IH|key k IH|key val k IH|i prompt k IH|h token k IH|y k IH];
    simpl; intros Hp w.
  - split; [done|]. by intros r' [= <-].
  - done.
  - apply (IH Hp (print line w)).
  - by apply IH.
  - done.
  - pose proof (InputWrapper_call_keeps prompt w) as [Henv _].
    destruct (InputWrapper_call prompt w) as [[answer|e|] w1]; simpl in *; try done.
    rewrite <- Henv. by apply IH.
  - destruct handlers; [|done].
    pose proof (on_llm_new_token_keeps rt token w) as [Henv _].
    destruct (on_llm_new_token validate rt token w) as [[[]|e|] w1]; simpl in *; try done.
    rewrite <- Henv. by apply IH.
  - specialize (Hyield y w).
    destruct (on_yield y w) as [[[]|e|] w1]; simpl in *; try done.
    rewrite <- Hyield. by apply IH.
Qed.

(** A body that cannot call [input] never waits. *)
Lemma run_without_input_returns {R : Type} rt handlers (p : prog Empty_set Empty_set R) w :
  fst (run validate rt handlers no_yield p w) <> Blocked.
Proof.
  revert w. induction p as [r|e|line k IH|key k IH|key val k IH|i prompt k IH|h token k IH|y k IH];
    simpl; intros w; try done.
  - destruct handlers; [|done].
    pose proof (on_llm_new_token_returns rt token w).
    by destruct (on_llm_new_token validate rt token w) as [[[]|e|] w1].
Qed.

(** No body puts frames back: it only takes them. *)
Lemma run_inbox {I Y R : Type} rt handlers
    (on_yield : Y -> world -> outcome unit * world) (p : prog I Y R) :
  (forall y w, inbox (snd (on_yield y w)) = inbox w) ->
  forall w,
    List.length (inbox (snd (run validate rt handlers on_yield p w))) <= List.length (inbox w).
Proof.
  intros Hyield. induction p as [r|e|line k IH|key k IH|key val k IH|i prompt k IH|h token k IH|y k IH];
    simpl; intros w; try done.
  - apply (IH (print line w)).
  - apply (IH (setenv key val w)).
  - pose proof (InputWrapper_call_keeps prompt w) as [_ Hin].
    destruct (InputWrapper_call prompt w) as [[answer|e|] w1]; simpl in *; try done.
    etrans; [apply IH|done].
  - destruct handlers; [|done].
    pose proof (on_llm_new_token_keeps rt token w) as (_ & Hin & _).
    destruct (on_llm_new_token validate rt token w) as [[[]|e|] w1]; simpl in *;
      try (by rewrite Hin).
    rewrite <- Hin. apply IH.
  - specialize (Hyield y w).
    destruct (on_yield y w) as [[[]|e|] w1]; simpl in *; try (by rewrite Hyield).
    rewrite <- Hyield. apply IH.
Qed.

(** With the lock free, no body waits, and every body leaves it free. *)
Lemma run_lock_free {I Y R : Type} rt handlers
    (on_yield : Y -> world -> outcome unit * world) (p : prog I Y R) :
  (forall y w, fst (on_yield y w) <> Blocked /\ locked (snd (on_yield y w)) = locked w) ->
  forall w,
    locked w = false ->
    fst (run validate rt handlers on_yield p w) <> Blocked /\
    locked (snd (run validate rt handlers on_yield p w)) = false.
Proof.
  intros Hyield. induction p as [r|e|line k IH|key k IH|key val k IH|i prompt k IH|h token k IH|y k IH];
    simpl; intros w Hfree; try done.
  - by apply IH.
  - by apply IH.
  - by apply IH.
  - pose proof (InputWrapper_call_free prompt w Hfree) as [Hret Hlock].
    destruct (InputWrapper_call prompt w) as [[answer|e|] w1]; simpl in *; try done.
    by apply IH.
  - destruct handlers; [|done].
    pose proof (on_llm_new_token_keeps rt token w) as (_ & _ & Hlock).
    pose proof (on_llm_new_token_returns rt token w) as Hret.
    destruct (on_llm_new_token validate rt token w) as [[[]|e|] w1]; simpl in *;
      try done; try (split; [done|congruence]).
    apply IH. congruence.
  - destruct (Hyield y w) as [Hret Hlock].
    destruct (on_yield y w) as [[[]|e|] w1]; simpl in *;
      try done; try (split; [done|congruence]).
    apply IH. congruence.
Qed.

End RunFacts.

(** ** Environment overrides around an invocation *)

Section EnvScope.

Variable validate : annotation -> pyvalue -> string + pyvalue.

(** The HTTP handler always comes back: with an output or with an
    exception. *)
Lemma http_route_returns rt (func : gmap string pyvalue -> body Empty_set) data envs w :
  fst (_create_http_route validate rt func data envs w) <> Blocked.
Proof.
  unfold _create_http_route, EnvironmentVarCtxtManager, Capturing.
  set (w_in := set_stdout [] (set_environ _ w)).
  pose proof (run_without_input_returns validate rt false (func data) w_in) as Hret.
  destruct (run validate rt false no_yield (func data) w_in) as [[r|e|] w1]; simpl in *; try done.
  - by destruct (output_model validate rt (value_of r) "" _).
  - destruct (exn_catchable e); simpl; [|done].
    by destruct (output_model validate rt (VStr "") (exn_text e) _).
Qed.

Lemma http_route_environ rt (func : gmap string pyvalue -> body Empty_set) data envs w :
  let after := _create_http_route validate rt func data envs w in
  (forall key, is_Some (envs !! key) -> environ (snd after) !! key = environ w !! key) /\
  (reads_only_func func -> environ (snd after) = environ w).
Proof.
  intros after.
  pose proof (http_route_returns rt func data envs w) as Hret.
  unfold after, _create_http_route in *.
  apply guard_restores in Hret as [_ Hkeys].
  split.
  - intros key [val Hval]. by rewrite Hkeys, Hval.
  - intros Hquiet. apply map_eq. intros key. rewrite Hkeys.
    destruct (envs !! key) as [val|] eqn:Hval; [done|].
    unfold Capturing.
    set (w_in := set_stdout [] (set_environ (env_apply envs (environ w)) w)).
    destruct (run_reads_only validate rt false no_yield _ (func data)
                (fun y w => match y with end) (Hquiet data) w_in) as [Henv _].
    assert (environ w_in !! key = environ w !! key) as <-.
    { simpl. by rewrite env_apply_lookup, Hval. }
    rewrite <- Henv.
    destruct (run validate rt false no_yield (func data) w_in) as [[r|e|] w1]; simpl; try done.
    + by destruct (output_model validate rt (value_of r) "" _).
    + destruct (exn_catchable e); simpl; [|done].
      by destruct (String.eqb (exn_text e) ""),
                  (output_model validate rt (VStr "") (exn_text e) _).
Qed.

(** A body that starts by reading an overridden variable goes on with
    the overriding value. *)
Lemma http_route_sees_override rt data envs w key val
    (g : gmap string pyvalue -> option string -> body Empty_set) :
  envs !! key = Some val ->
  _create_http_route validate rt (fun kw => Getenv key (g kw)) data envs w =
  _create_http_route validate rt (fun kw => g kw (Some val)) data envs w.
Proof.
  intros Hval. unfold _create_http_route, EnvironmentVarCtxtManager, Capturing.
  simpl. by rewrite env_apply_lookup, Hval.
Qed.

Lemma ws_dispatch_environ rt ra (func : gmap string pyvalue -> body unit) data envs w :
  let after := ws_dispatch validate rt ra func data envs w in
  fst after <> Blocked ->
  (forall key, is_Some (envs !! key) -> environ (snd after) !! key = environ w !! key) /\
  (reads_only_func func -> environ (snd after) = environ w).
Proof.
  intros after Hret. unfold after, ws_dispatch in *.
  apply guard_restores in Hret as [_ Hkeys].
  split.
  - intros key [val Hval]. by rewrite Hkeys, Hval.
  - intros Hquiet. apply map_eq. intros key. rewrite Hkeys.
    destruct (envs !! key) as [val|] eqn:Hval; [done|].
    set (w_in := set_environ (env_apply envs (environ w)) w).
    transitivity (environ w_in !! key);
      [|simpl; by rewrite env_apply_lookup, Hval].
    apply (f_equal (fun env : gmap string string => env !! key)).
    clear Hkeys. clearbody w_in.
    destruct (is_type_streaming_response ra) as [e|[|]]; simpl.
    + by destruct (exn_catchable e), (String.eqb (exn_text e) "").
    + destruct (run_reads_only validate rt true no_yield _ (func (with_handlers data))
                  (fun y w => match y with end) (Hquiet _) w_in) as [Henv _].
      rewrite <- Henv.
      destruct (run validate rt true no_yield (func (with_handlers data)) w_in)
        as [[r|e|] w1]; simpl; try done.
      by destruct (exn_catchable e), (String.eqb (exn_text e) "").
    + destruct (run_reads_only validate rt false no_yield _ (func data)
                  (fun y w => match y with end) (Hquiet _) w_in) as [Henv Hgen].
      rewrite <- Henv.
      destruct (run validate rt false no_yield (func data) w_in)
        as [[[v|gen]|e|] w1]; simpl in *; try done.
      * destruct (output_model validate rt v "" ""); simpl; [|done].
        by destruct (exn_catchable e), (String.eqb (exn_text e) "").
      * destruct (run_reads_only validate rt false (send_stream validate rt) _ gen
                    (fun y w => proj1 (proj2 (send_stream_keeps validate rt y w)))
                    (Hgen _ eq_refl) w1) as [Hgenv _].
        rewrite <- Hgenv.
        destruct (run validate rt false (send_stream validate rt) gen w1)
          as [[[]|e|] w2]; simpl; try done.
        by destruct (exn_catchable e), (String.eqb (exn_text e) "").
      * by destruct (exn_catchable e), (String.eqb (exn_text e) "").
Qed.

Lemma ws_dispatch_sees_override rt ra data envs w key val
    (g : gmap string pyvalue -> option string -> body unit) :
  envs !! key = Some val ->
  ws_dispatch validate rt ra (fun kw => Getenv key (g kw)) data envs w =
  ws_dispatch validate rt ra (fun kw => g kw (Some val)) data envs w.
Proof.
  intros Hval. unfold ws_dispatch, EnvironmentVarCtxtManager.
  simpl. by rewrite env_apply_lookup, Hval.
Qed.

End EnvScope.

(** C6.  Around an invocation that carries an [envs] mapping, in the HTTP
    handler and in the WebSocket handler alike: a function that reads an
    overridden variable goes on with the overriding value; on every way out
    of the invocation (a result or an exception) every overridden variable
    has the value it had before, and is absent if it was absent; and when
    the function itself writes no variable, the whole environment is as it
    was before the invocation. *)
Theorem env_overrides_are_scoped
    (validate : annotation -> pyvalue -> string + pyvalue)
    (rt : annotation) (data : gmap string pyvalue) (envs : gmap string string) (w : world) :
  (forall func : gmap string pyvalue -> body Empty_set,
     let after := _create_http_route validate rt func data envs w in
     fst after <> Blocked /\
     (forall key, is_Some (envs !! key) -> environ (snd after) !! key = environ w !! key) /\
     (reads_only_func func -> environ (snd after) = environ w)) /\
  (forall key val (g : gmap string pyvalue -> option string -> body Empty_set),
     envs !! key = Some val ->
     _create_http_route validate rt (fun kw => Getenv key (g kw)) data envs w =
     _create_http_route validate rt (fun kw => g kw (Some val)) data envs w) /\
  (forall ra (func : gmap string pyvalue -> body unit),
     let after := ws_dispatch validate rt ra func data envs w in
     fst after <> Blocked ->
     (forall key, is_Some (envs !! key) -> environ (snd after) !! key = environ w !! key) /\
     (reads_only_func func -> environ (snd after) = environ w)) /\
  (forall ra key val (g : gmap string pyvalue -> option string -> body unit),
     envs !! key = Some val ->
     ws_dispatch validate rt ra (fun kw => Getenv key (g kw)) data envs w =
     ws_dispatch validate rt ra (fun kw => g kw (Some val)) data envs w).
Proof.
  repeat split.
  - apply http_route_returns.
  - apply http_route_environ.
  - apply http_route_environ.
  - intros key val g. apply http_route_sees_override.
  - by apply ws_dispatch_environ.
  - by apply ws_dispatch_environ.
  - intros ra key val g. apply ws_dispatch_sees_override.
Qed.

(** ** Registration *)

Lemma register_collision self func rt :
  route_name_of func ∈ map route_name (routes self) ->
  _register_route self func rt = inr (self, skipped func).
Proof.
  intros Hin. unfold _register_route. by rewrite bool_decide_eq_true_2.
Qed.

Lemma register_fresh self func rt :
  route_name_of func ∉ map route_name (routes self) ->
  _register_route self func rt =
  match _get_result_type func with
  | inl e => inl e
  | inr result_type =>
      inr (Registry
             (routes self ++
                [Route (route_name_of func) ("/" ++ fn_name func) rt func
                       (_input_model_fields func) result_type (locks_created self)])
             (S (locks_created self)), [])
  end.
Proof.
  intros Hout. unfold _register_route. by rewrite bool_decide_eq_false_2.
Qed.

Lemma routes_named_absent name self :
  name ∉ map route_name (routes self) -> routes_named name self = [].
Proof.
  unfold routes_named. induction (routes self) as [|r rs IH]; simpl; [done|].
  intros Hout. apply not_elem_of_cons in Hout as [Hne Hout].
  destruct (String.eqb_spec (route_name r) name) as [Heq|_]; [done|]. by apply IH.
Qed.

(** C5.  Registering a function whose route name is already taken changes
    nothing: the registry that comes back is the one that went in, with no
    route added and none modified.  So after a function has been
    registered, registering it again is skipped, and if its name was free
    at first, exactly one route carries the name afterwards. *)
Theorem register_twice_is_noop (self : registry) (func : function) (rt rt' : RouteType) :
  (route_name_of func ∈ map route_name (routes self) ->
   _register_route self func rt = inr (self, skipped func)) /\
  (forall self' printed,
     _register_route self func rt = inr (self', printed) ->
     _register_route self' func rt' = inr (self', skipped func) /\
     (route_name_of func ∉ map route_name (routes self) ->
      List.length (routes_named (route_name_of func) self') = 1)).
Proof.
  split; [apply register_collision|].
  intros self' printed Hfirst.
  destruct (decide (route_name_of func ∈ map route_name (routes self))) as [Hin|Hout].
  - rewrite (register_collision _ _ rt Hin) in Hfirst.
    injection Hfirst as <- <-. split; [by apply register_collision|done].
  - rewrite (register_fresh _ _ rt Hout) in Hfirst.
    destruct (_get_result_type func) as [e|result_type]; [done|].
    injection Hfirst as <- <-. split.
    + apply register_collision. simpl. rewrite map_app. simpl.
      apply elem_of_app. right. apply list_elem_of_singleton. done.
    + intros _. unfold routes_named. simpl. rewrite List.filter_app.
      fold (routes_named (route_name_of func) self).
      rewrite (routes_named_absent _ _ Hout). simpl.
      by rewrite String.eqb_refl.
Qed.

(** ** Result types *)

(** C7, as the code has it.  A missing return annotation gives [str]; an
    annotation with [__origin__] gives the first of its [__args__]; one
    without [__origin__] but with [__next__] gives the return annotation of
    [__next__]; any other annotation is used as it stands.  There is no
    fallback: an annotation with [__origin__] whose [__args__] is empty or
    missing, or with a [__next__] that has no return annotation, makes
    [_get_result_type] raise, and the registration of a function whose name
    is free raises with it. *)
Theorem result_type_resolution :
  (forall name params, _get_result_type (Function name params None) = inr str) /\
  (forall name params n first rest next,
     _get_result_type (Function name params (Some (Ann n (Some (Some (first :: rest))) next)))
     = inr first) /\
  (forall name params n r,
     _get_result_type (Function name params (Some (Ann n None (Some (Some r))))) = inr r) /\
  (forall name params n,
     _get_result_type (Function name params (Some (Ann n None None))) = inr (Ann n None None)) /\
  (forall name params n next,
     _get_result_type (Function name params (Some (Ann n (Some (Some [])) next)))
     = inl IndexError) /\
  (forall name params n next,
     _get_result_type (Function name params (Some (Ann n (Some None) next)))
     = inl (AttributeError "__args__")) /\
  (forall name params n,
     _get_result_type (Function name params (Some (Ann n None (Some None))))
     = inl (KeyError "return")) /\
  (forall self func rt e,
     _get_result_type func = inl e ->
     route_name_of func ∉ map route_name (routes self) ->
     _register_route self func rt = inl e).
Proof.
  repeat split; try done.
  intros self func rt e Hraise Hfree.
  by rewrite (register_fresh _ _ _ Hfree), Hraise.
Qed.

(** C7 as the spec words it does not hold: for a function annotated with
    the bare [collections.abc.Iterator] the result type is not [str], the
    resolution raises [KeyError], and so does the registration. *)
Lemma result_type_no_fallback :
  _get_result_type numbers <> inr str /\
  _get_result_type numbers = inl (KeyError "return") /\
  _register_route no_routes numbers HTTP = inl (KeyError "return").
Proof. repeat split; done. Qed.

(** ** The receive lock of a route *)


Lemma register_locks_distinct self func rt self' printed :
  locks_distinct self ->
  _register_route self func rt = inr (self', printed) ->
  locks_distinct self'.
Proof.
  intros [Hnodup Hbound] Hreg. unfold _register_route in Hreg.
  destruct (bool_decide _); [by injection Hreg as <- <-|].
  destruct (_get_result_type func) as [e|result_type]; [done|].
  injection Hreg as <- <-. split; simpl.
  - rewrite map_app. simpl. apply NoDup_app. split; [done|]. split.
    + intros lock Hin Hnew. apply list_elem_of_singleton in Hnew as ->.
      apply list_elem_of_fmap in Hin as (r & Hlock & Hr).
      rewrite Forall_forall in Hbound. specialize (Hbound r Hr). lia.
    + apply NoDup_singleton.
  - apply Forall_app. split.
    + eapply Forall_impl; [exact Hbound|]. simpl. intros r Hr. lia.
    + apply Forall_singleton. simpl. lia.
Qed.

Lemma websocket_connect_route self path client self' s :
  websocket_connect self path client = Some (self', s) ->
  self' = self /\ session_client s = client /\
  session_lock s = route_lock (session_route s) /\
  session_route s ∈ routes self /\ route_path (session_route s) = path.
Proof.
  unfold websocket_connect.
  destruct (List.find _ (routes self)) as [r|] eqn:Hfind; [|done].
  intros [= <- <-]. simpl. apply List.find_some in Hfind as [Hin Hmatch].
  apply andb_true_iff in Hmatch as [Hpath _].
  apply String.eqb_eq in Hpath.
  repeat split; try done. by apply list_elem_of_In.
Qed.

Lemma locks_distinct_inj self r1 r2 :
  locks_distinct self ->
  r1 ∈ routes self -> r2 ∈ routes self ->
  route_lock r1 = route_lock r2 -> r1 = r2.
Proof.
  intros [Hnodup _]. induction (routes self) as [|r rs IH]; simpl in *.
  - by intros Hin%elem_of_nil.
  - apply NoDup_cons in Hnodup as [Hfresh Hnodup].
    intros [->|H1]%elem_of_cons [->|H2]%elem_of_cons Hlock; try done.
    + exfalso. apply Hfresh. rewrite Hlock. by apply list_elem_of_fmap_2.
    + exfalso. apply Hfresh. rewrite <- Hlock. by apply list_elem_of_fmap_2.
    + by apply IH.
Qed.

(** C9, as the code has it.  The receive lock belongs to the route, not
    to the connection.  It is created when the route is registered, one
    lock for each registration that is not skipped; connecting creates
    none and leaves the registry as it was; the session of every connection
    to a path uses the lock of the route that serves the path, so two
    connections to the same path use the same lock.  In a registry whose
    routes have different locks (the empty one has, and registration
    keeps it so) sessions on different routes use different locks. *)
Theorem receive_lock_is_per_route (self : registry) :
  (forall func rt self' printed,
     route_name_of func ∉ map route_name (routes self) ->
     _register_route self func rt = inr (self', printed) ->
     locks_created self' = S (locks_created self) /\
     exists r, routes self' = (routes self ++ [r])%list /\ route_lock r = locks_created self) /\
  (forall path client self' s,
     websocket_connect self path client = Some (self', s) ->
     self' = self /\ session_lock s = route_lock (session_route s) /\
     forall client',
       exists s', websocket_connect self path client' = Some (self, s') /\
                  session_client s' = client' /\
                  session_route s' = session_route s /\
                  session_lock s' = session_lock s) /\
  (forall func rt self' printed,
     locks_distinct self ->
     _register_route self func rt = inr (self', printed) ->
     locks_distinct self') /\
  (forall path1 path2 client1 client2 self1 self2 s1 s2,
     locks_distinct self ->
     websocket_connect self path1 client1 = Some (self1, s1) ->
     websocket_connect self path2 client2 = Some (self2, s2) ->
     session_route s1 <> session_route s2 ->
     session_lock s1 <> session_lock s2).
Proof.
  split; [|split; [|split]].
  - intros func rt self' printed Hfree Hreg.
    rewrite (register_fresh _ _ _ Hfree) in Hreg.
    destruct (_get_result_type func); [done|]. injection Hreg as <- <-.
    split; [done|]. by eexists.
  - intros path client self' s Hconn.
    pose proof (websocket_connect_route _ _ _ _ _ Hconn) as (-> & _ & Hlock & _).
    split; [done|]. split; [done|].
    intros client'. unfold websocket_connect in *.
    destruct (List.find _ (routes self)) as [r|]; [|done].
    injection Hconn as <-. by eexists.
  - intros func rt self' printed. apply register_locks_distinct.
  - intros path1 path2 client1 client2 self1 self2 s1 s2 Hdistinct H1 H2 Hroutes Hlocks.
    apply websocket_connect_route in H1 as (_ & _ & Hl1 & Hin1 & _).
    apply websocket_connect_route in H2 as (_ & _ & Hl2 & Hin2 & _).
    apply Hroutes. apply (locks_distinct_inj self); try done. congruence.
Qed.

(** C9 as the spec words it does not hold: two different clients
    connected to the route of [chat] get sessions with one and the same
    lock, and connecting has created no lock. *)
Lemma receive_lock_not_per_connection :
  exists s1 s2,
    websocket_connect chat_gateway "/chat" 1 = Some (chat_gateway, s1) /\
    websocket_connect chat_gateway "/chat" 2 = Some (chat_gateway, s2) /\
    session_client s1 <> session_client s2 /\
    session_lock s1 = session_lock s2 /\
    locks_created chat_gateway = 1.
Proof.
  exists (Session 1 (Route "Chat" "/chat" WEBSOCKET chat [("question", str)] str 0) 0),
         (Session 2 (Route "Chat" "/chat" WEBSOCKET chat [("question", str)] str 0) 0).
  split; [reflexivity|]. split; [reflexivity|]. split; [discriminate|]. split; reflexivity.
Qed.

(** ** The HTTP handler *)

Section Http.

Variable validate : annotation -> pyvalue -> string + pyvalue.

(** When the function returns, the handler answers with the validated
    value, no error and the captured lines; a value the result type rejects
    makes the handler raise. *)
Lemma http_route_on_return rt func data envs w r w1 :
  http_call validate rt func data envs w = (Returned r, w1) ->
  fst (_create_http_route validate rt func data envs w) =
  match validate rt (value_of r) with
  | inl detail => Raised (ValidationError detail)
  | inr v => Returned (mkOutput v "" (String.concat newline (sys_stdout w1)))
  end.
Proof.
  unfold http_call, _create_http_route, EnvironmentVarCtxtManager, Capturing, output_model.
  intros ->. simpl. by destruct (validate rt (value_of r)).
Qed.

(** When the function raises an [Exception], the handler prints its
    diagnostic inside the capture and builds the output from the empty
    string; a result type that rejects the empty string makes the handler
    raise. *)
Lemma http_route_on_raise rt func data envs w e w1 :
  http_call validate rt func data envs w = (Raised e, w1) ->
  exn_catchable e = true ->
  fst (_create_http_route validate rt func data envs w) =
  match validate rt (VStr "") with
  | inl detail => Raised (ValidationError detail)
  | inr v =>
      Returned (mkOutput v (exn_text e)
                  (String.concat newline
                     (sys_stdout w1 ++ ["Got an exception: " ++ exn_text e])))
  end.
Proof.
  unfold http_call, _create_http_route, EnvironmentVarCtxtManager, Capturing, output_model.
  intros -> ->. simpl. by destruct (validate rt (VStr "")).
Qed.

(** An exception that is not an [Exception] escapes the handler. *)
Lemma http_route_on_escape rt func data envs w e w1 :
  http_call validate rt func data envs w = (Raised e, w1) ->
  exn_catchable e = false ->
  fst (_create_http_route validate rt func data envs w) = Raised e.
Proof.
  unfold http_call, _create_http_route, EnvironmentVarCtxtManager, Capturing.
  by intros -> ->.
Qed.

End Http.

(** C10.  When the function raises and the handler returns an output,
    the [stdout] of the output is the lines the function printed, joined by
    newlines, followed by the handler's own line [Got an exception: ...]
    with the text of the exception, which is also the [error]. *)
Theorem http_stdout_has_diagnostic
    (validate : annotation -> pyvalue -> string + pyvalue)
    (rt : annotation) (func : gmap string pyvalue -> body Empty_set)
    (data : gmap string pyvalue) (envs : gmap string string)
    (w w1 : world) (e : exn) (o : Output) :
  http_call validate rt func data envs w = (Raised e, w1) ->
  fst (_create_http_route validate rt func data envs w) = Returned o ->
  stdout o = String.concat newline (sys_stdout w1 ++ ["Got an exception: " ++ exn_text e]) /\
  error o = exn_text e.
Proof.
  intros Hcall Hout.
  destruct (exn_catchable e) eqn:Hcatch.
  - rewrite (http_route_on_raise _ _ _ _ _ _ _ _ Hcall Hcatch) in Hout.
    destruct (validate rt (VStr "")); [done|]. by injection Hout as <-.
  - by rewrite (http_route_on_escape _ _ _ _ _ _ _ _ Hcall Hcatch) in Hout.
Qed.

(** C1 fails on the code.  [parse] is annotated to return [int]; called
    over HTTP with a text that is no number it raises [ValueError].  The
    handler then builds its output with the empty string as result, which
    the [int] field rejects: the [ValidationError] escapes the handler, and
    no output carrying the error is returned. *)
Theorem http_error_output_rejected_for_int :
  _get_result_type parse = inr int /\
  fst (http_call Pydantic.validate int parse_body {[ "text" := VStr "abc" ]} ∅ (client_sent []))
  = Raised (Exn true "ValueError" "invalid literal for int() with base 10: 'abc'") /\
  fst (_create_http_route Pydantic.validate int parse_body
         {[ "text" := VStr "abc" ]} ∅ (client_sent []))
  = Raised (ValidationError "value is not a valid integer").
Proof. split; [reflexivity|]. split; vm_compute; reflexivity. Qed.

(** ** The WebSocket handler *)

Section WebSocket.

Variable validate : annotation -> pyvalue -> string + pyvalue.
Variable input_model :
  list (string * annotation) -> list (string * pyvalue) ->
  string + (gmap string pyvalue * gmap string string).

(** A turn that finds the lock free and a JSON frame waiting serves the
    value of that frame. *)
Lemma ws_turn_received r func w data rest _data :
  locked w = false ->
  inbox w = data :: rest ->
  frame_json data = Some _data ->
  ws_turn validate input_model r func w =
  ws_serve validate input_model r func _data (after_receive data rest w).
Proof.
  intros Hfree Hin Hjson. unfold ws_turn, acquire, receive_json, receive.
  rewrite Hfree. simpl. rewrite Hin, Hjson. unfold release, after_receive. simpl.
  by rewrite <- !app_assoc.
Qed.

(** With no frame left the client is gone: the turn ends in the
    disconnect, the lock released. *)
Lemma ws_turn_disconnected r func w :
  locked w = false ->
  inbox w = [] ->
  ws_turn validate input_model r func w =
  Escaped WebSocketDisconnect
    (World (environ w) (sys_stdout w) [] (wire w ++ [EvAcquire; EvRelease]) false).
Proof.
  intros Hfree Hin. unfold ws_turn, acquire, receive_json, receive.
  rewrite Hfree. simpl. rewrite Hin. unfold release. simpl.
  by rewrite <- !app_assoc.
Qed.

(** Input that fails validation never reaches the function: what the turn
    does is the same whatever the function is.  It prints, and answers with
    an output built from the empty string and the detail; a result type that
    rejects the empty string makes the handler raise instead. *)
Lemma ws_serve_invalid r func items detail w :
  input_model (route_input_fields r) items = inl detail ->
  ws_serve validate input_model r func (VDict items) w =
  let w := print ("Got an exception: " ++ detail) w in
  match validate (route_result_type r) (VStr "") with
  | inl rejected => Escaped (ValidationError rejected) w
  | inr v => Continue (send (MOutput (mkOutput v detail "")) w)
  end.
Proof.
  intros Hinvalid. unfold ws_serve, output_model. rewrite Hinvalid. simpl.
  by destruct (validate (route_result_type r) (VStr "")).
Qed.

(** Iterating a generator of items that the result type accepts sends one
    output for each, in order, and nothing else changes. *)
Lemma run_yield_all rt (items : list pyvalue) (w : world) :
  Forall (fun y => validate rt y = inr y) items ->
  run validate rt false (send_stream validate rt) (@yield_all unit items) w =
  (Returned tt,
   World (environ w) (sys_stdout w) (inbox w) (wire w ++ map output_of items) (locked w)).
Proof.
  intros Hitems. revert w. induction Hitems as [|y ys Hy _ IH]; intros w; simpl.
  - rewrite app_nil_r. by destruct w.
  - unfold send_stream at 1, output_model. rewrite Hy. rewrite IH. simpl.
    by rewrite <- app_assoc.
Qed.

(** Pushing tokens that the result type accepts prints a line and sends
    one output for each call, in order, whichever handler is used. *)
Lemma run_push_all {R : Type} rt (calls : list (handle * string)) (r : R) (w : world) :
  (forall token, validate rt (VStr token) = inr (VStr token)) ->
  run validate rt true no_yield (@push_all unit Empty_set R calls r) w =
  (Returned r,
   World (environ w)
         (sys_stdout w ++ map (fun c => "Got token " ++ snd c) calls)
         (inbox w)
         (wire w ++ map (fun c => output_of (VStr (snd c))) calls)
         (locked w)).
Proof.
  intros Htoken. revert w. induction calls as [|[h token] calls IH]; intros w; simpl.
  - rewrite !app_nil_r. by destruct w.
  - unfold on_llm_new_token, output_model. rewrite Htoken. rewrite IH. simpl.
    by rewrite <- !app_assoc.
Qed.

(** The guard leaves the frames to the block. *)
Lemma guard_inbox {A : Type} envs (block : world -> outcome A * world) w :
  inbox (snd (EnvironmentVarCtxtManager envs block w)) =
  inbox (snd (block (set_environ (env_apply envs (environ w)) w))).
Proof.
  unfold EnvironmentVarCtxtManager.
  by destruct (block _) as [[a|e|] w1].
Qed.

Lemma ws_dispatch_inbox rt ra func data envs w :
  List.length (inbox (snd (ws_dispatch validate rt ra func data envs w)))
  <= List.length (inbox w).
Proof.
  unfold ws_dispatch. rewrite guard_inbox.
  set (w_in := set_environ (env_apply envs (environ w)) w).
  change (inbox w) with (inbox w_in). clearbody w_in.
  destruct (is_type_streaming_response ra) as [e|[|]]; simpl.
  - by destruct (exn_catchable e), (String.eqb (exn_text e) "").
  - pose proof (run_inbox validate rt true no_yield (func (with_handlers data))
                  (fun y w => match y with end) w_in) as Hrun.
    destruct (run validate rt true no_yield (func (with_handlers data)) w_in)
      as [[r|e|] w1]; simpl in *; try done.
    by destruct (exn_catchable e), (String.eqb (exn_text e) "").
  - pose proof (run_inbox validate rt false no_yield (func data)
                  (fun y w => match y with end) w_in) as Hrun.
    destruct (run validate rt false no_yield (func data) w_in)
      as [[[v|gen]|e|] w1]; simpl in *; try done.
    + destruct (output_model validate rt v "" ""); simpl; [|done].
      by destruct (exn_catchable e), (String.eqb (exn_text e) "").
    + pose proof (run_inbox validate rt false (send_stream validate rt) gen
                    (fun y w => proj1 (proj2 (proj2 (send_stream_keeps validate rt y w)))) w1)
        as Hgen.
      destruct (run validate rt false (send_stream validate rt) gen w1)
        as [[[]|e|] w2]; simpl in *; try lia.
      destruct (exn_catchable e), (String.eqb (exn_text e) ""); simpl; lia.
    + by destruct (exn_catchable e), (String.eqb (exn_text e) "").
Qed.

Lemma ws_serve_inbox r func _data w :
  List.length (inbox (turn_world (ws_serve validate input_model r func _data w)))
  <= List.length (inbox w).
Proof.
  unfold ws_serve. destruct _data as [| | | | |items|]; try done.
  destruct (input_model (route_input_fields r) items) as [detail|[data envs]].
  - by destruct (output_model validate _ _ _ _).
  - pose proof (ws_dispatch_inbox (route_result_type r) (fn_return (route_func r))
                  func data envs w) as Hin.
    by destruct (ws_dispatch validate _ _ func data envs w) as [[[|]|e|] w1].
Qed.

(** A turn after which the loop goes on has taken a frame. *)
Lemma ws_turn_continue r func w w' :
  ws_turn validate input_model r func w = Continue w' ->
  List.length (inbox w') < List.length (inbox w).
Proof.
  unfold ws_turn, acquire, receive_json, receive.
  destruct (locked w); [done|]. simpl.
  destruct (inbox w) as [|data rest] eqn:Hin; simpl; [done|].
  destruct (frame_json data) as [_data|]; [|done].
  intros Hturn.
  pose proof (ws_serve_inbox r func _data
                (release (World (environ w) (sys_stdout w) rest
                                ((wire w ++ [EvAcquire]) ++ [EvReceive (frame_text data)])
                                true))) as Hle.
  rewrite Hturn in Hle. simpl in Hle. lia.
Qed.

Lemma ws_loop_has_fuel fuel r func w :
  List.length (inbox w) < fuel ->
  forall w', ws_loop validate input_model fuel r func w <> OutOfFuel w'.
Proof.
  revert w. induction fuel as [|fuel IH]; intros w Hfuel w'; [lia|]. simpl.
  destruct (ws_turn validate input_model r func w) as [w1|w1|e w1|w1] eqn:Hturn; try done.
  - apply IH. apply ws_turn_continue in Hturn. lia.
  - by destruct (String.eqb (exn_class e) "WebSocketDisconnect").
Qed.

(** The session always comes to an end within the turns it is given. *)
Lemma ws_route_has_fuel r func w w' :
  _create_ws_route validate input_model r func w <> OutOfFuel w'.
Proof. unfold _create_ws_route. apply ws_loop_has_fuel. simpl. lia. Qed.

End WebSocket.

(** C2.  A route that is not a streaming one, a request that validates,
    and a function that answers it with a generator of items [ys], each
    accepted as it is by the result type: the session sends one output for
    each item, in order and with empty error, then closes the connection and
    ends, without receiving anything more from the client. *)
Theorem ws_generator_streams_then_closes
    (validate : annotation -> pyvalue -> string + pyvalue)
    (input_model : list (string * annotation) -> list (string * pyvalue) ->
                   string + (gmap string pyvalue * gmap string string))
    (r : route) (func : gmap string pyvalue -> body unit) (w : world)
    (data : frame) (rest : list frame) (items : list (string * pyvalue))
    (kw : gmap string pyvalue) (envs : gmap string string) (ys : list pyvalue) :
  locked w = false ->
  inbox w = data :: rest ->
  frame_json data = Some (VDict items) ->
  input_model (route_input_fields r) items = inr (kw, envs) ->
  is_type_streaming_response (fn_return (route_func r)) = inr false ->
  func kw = Ret (Generator (yield_all ys)) ->
  Forall (fun y => validate (route_result_type r) y = inr y) ys ->
  exists w',
    _create_ws_route validate input_model r func w = Finished w' /\
    wire w' = (wire w ++ [EvAccept; EvAcquire; EvReceive (frame_text data); EvRelease]
                 ++ map output_of ys ++ [EvClose])%list /\
    inbox w' = rest /\
    sys_stdout w' = sys_stdout w.
Proof.
  intros Hfree Hin Hjson Hvalid Hmode Hgen Hys.
  unfold _create_ws_route. simpl.
  rewrite (ws_turn_received validate input_model r func (accept w) data rest (VDict items))
    by done.
  unfold ws_serve. rewrite Hvalid.
  unfold ws_dispatch, EnvironmentVarCtxtManager. rewrite Hmode, Hgen. simpl.
  rewrite (run_yield_all validate _ ys) by done. simpl.
  eexists. split; [reflexivity|]. simpl.
  split; [|done]. by rewrite <- !app_assoc.
Qed.

(** C8.  On a streaming route, for a request that validates, with a
    result type that accepts every token as it is: the function is called
    with the two handlers among its arguments; each call of a handler prints
    a line and sends exactly one output, with the token as result and empty
    error; when the function returns, the adapter sends nothing for what it
    returned and does not close: the turn ends with the loop going on.  So a
    function that pushes some tokens and returns leaves exactly the outputs
    of those tokens on the connection. *)
Theorem ws_streaming_pushes_and_stays_open
    (validate : annotation -> pyvalue -> string + pyvalue)
    (input_model : list (string * annotation) -> list (string * pyvalue) ->
                   string + (gmap string pyvalue * gmap string string))
    (r : route) (func : gmap string pyvalue -> body unit) (w : world)
    (data : frame) (rest : list frame) (items : list (string * pyvalue))
    (kw : gmap string pyvalue) (envs : gmap string string) :
  locked w = false ->
  inbox w = data :: rest ->
  frame_json data = Some (VDict items) ->
  input_model (route_input_fields r) items = inr (kw, envs) ->
  is_type_streaming_response (fn_return (route_func r)) = inr true ->
  (forall token, validate (route_result_type r) (VStr token) = inr (VStr token)) ->
  let rt := route_result_type r in
  let w_in := set_environ (env_apply envs (environ w)) (after_receive data rest w) in
  (with_handlers kw !! "streaming_handler"
     = Some (VObject "StreamingWebsocketCallbackHandler") /\
   with_handlers kw !! "async_streaming_handler"
     = Some (VObject "AsyncStreamingWebsocketCallbackHandler")) /\
  (forall h token (k : body unit) w1,
     run validate rt true no_yield (Token h token k) w1 =
     run validate rt true no_yield k
         (send (MOutput (mkOutput (VStr token) "" "")) (print ("Got token " ++ token) w1))) /\
  (forall ret w_out,
     run validate rt true no_yield (func (with_handlers kw)) w_in = (Returned ret, w_out) ->
     exists w',
       ws_turn validate input_model r func w = Continue w' /\
       wire w' = wire w_out /\ inbox w' = inbox w_out /\ sys_stdout w' = sys_stdout w_out) /\
  (forall calls ret,
     func (with_handlers kw) = push_all calls ret ->
     exists w',
       ws_turn validate input_model r func w = Continue w' /\
       wire w' = (wire w ++ [EvAcquire; EvReceive (frame_text data); EvRelease]
                    ++ map (fun c => output_of (VStr (snd c))) calls)%list /\
       inbox w' = rest).
Proof.
  intros Hfree Hin Hjson Hvalid Hmode Htoken rt w_in.
  assert (forall ret w_out,
     run validate rt true no_yield (func (with_handlers kw)) w_in = (Returned ret, w_out) ->
     ws_turn validate input_model r func w =
     Continue (set_environ (env_restore envs (environ w) (environ w_out)) w_out)) as Hturn.
  { intros ret w_out Hrun.
    rewrite (ws_turn_received validate input_model r func w data rest (VDict items)) by done.
    unfold ws_serve. rewrite Hvalid.
    unfold ws_dispatch, EnvironmentVarCtxtManager. rewrite Hmode.
    fold rt. change (set_environ _ (after_receive data rest w)) with w_in.
    by rewrite Hrun. }
  split; [|split; [|split]].
  - unfold with_handlers. split.
    + by rewrite lookup_insert_ne, lookup_insert_eq.
    + by rewrite lookup_insert_eq.
  - intros h token k w1. simpl. unfold on_llm_new_token, output_model.
    unfold rt. by rewrite Htoken.
  - intros ret w_out Hrun. eexists. split; [by eapply Hturn|]. done.
  - intros calls ret Hfunc. eexists. split.
    + eapply Hturn. rewrite Hfunc. by apply run_push_all.
    + simpl. split; [|done]. by rewrite <- !app_assoc.
Qed.

(** ** Asking the human *)

(** What [input] does on the connection when the lock is free and an
    answer is waiting: it takes the lock, sends the prompt, gives the lock
    back, and only then receives. *)
Lemma InputWrapper_acall_order prompt w data rest :
  locked w = false ->
  inbox w = data :: rest ->
  InputWrapper_acall prompt w =
  (Returned (frame_text data),
   World (environ w) (sys_stdout w) rest
         (wire w ++ [EvAcquire; EvSend (MPrompt prompt); EvRelease;
                     EvReceive (frame_text data)])
         false).
Proof.
  intros Hfree Hin. unfold InputWrapper_acall, acquire. rewrite Hfree.
  unfold receive_text, receive. simpl. rewrite Hin. simpl.
  by rewrite <- !app_assoc.
Qed.

(** C3 fails on the code.  In a session of [hitl], which asks for a name
    while it serves a request, the ask takes the lock only to send the
    prompt: it has released the lock when it receives the answer.  The
    request is received with the lock held, the answer is not. *)
Theorem ask_receives_without_lock :
  InputWrapper_acall "What is your name?" (client_sent [Frame "Ann" None]) =
  (Returned "Ann",
   World ∅ [] []
         [EvAcquire; EvSend (MPrompt "What is your name?"); EvRelease; EvReceive "Ann"]
         false) /\
  receives_hold_lock false
    [EvAcquire; EvSend (MPrompt "What is your name?"); EvRelease; EvReceive "Ann"] = false /\
  _create_ws_route Pydantic.validate Pydantic.input_model hitl_route hitl_body
    (client_sent [empty_object; Frame "Ann" None]) =
  Finished
    (World ∅ ["Client disconnected"] []
           [EvAccept;
            EvAcquire; EvReceive "{}"; EvRelease;
            EvAcquire; EvSend (MPrompt "What is your name?"); EvRelease; EvReceive "Ann";
            output_of (VStr "hello, Ann");
            EvAcquire; EvRelease]
           false) /\
  receives_hold_lock false [EvAcquire; EvReceive "{}"; EvRelease] = true.
Proof. repeat split; vm_compute; reflexivity. Qed.

(** C4 fails on the code.  The route of [parse] has result type [int].  A
    request without the [text] field fails validation; the handler prints,
    then builds its answer with the empty string as result, which the [int]
    field rejects: the [ValidationError] escapes the loop, the session
    crashes, and nothing has been sent. *)
Theorem ws_invalid_input_crashes_for_int :
  Pydantic.input_model (route_input_fields (parse_route WEBSOCKET)) [] =
    inl "text: field required" /\
  _create_ws_route Pydantic.validate Pydantic.input_model (parse_route WEBSOCKET) parse_body
    (client_sent [empty_object]) =
  Crashed (ValidationError "value is not a valid integer")
    (World ∅ ["Got an exception: text: field required"] []
           [EvAccept; EvAcquire; EvReceive "{}"; EvRelease] false).
Proof. split; vm_compute; reflexivity. Qed.

(** ** The theorems at work *)

(** [letters] served to a client that sends one request and nothing
    more. *)
Lemma ws_generator_streams_then_closes_witness :
  exists w',
    _create_ws_route Pydantic.validate Pydantic.input_model letters_route letters_body
      (client_sent [empty_object]) = Finished w' /\
    wire w' = [EvAccept; EvAcquire; EvReceive "{}"; EvRelease;
               output_of (VStr "a"); output_of (VStr "b"); output_of (VStr "c");
               EvClose] /\
    inbox w' = [] /\
    sys_stdout w' = [].
Proof.
  apply (ws_generator_streams_then_closes Pydantic.validate Pydantic.input_model
           letters_route letters_body (client_sent [empty_object])
           empty_object [] [] ∅ ∅ [VStr "a"; VStr "b"; VStr "c"]).
  - reflexivity.
  - reflexivity.
  - reflexivity.
  - reflexivity.
  - reflexivity.
  - reflexivity.
  - repeat constructor.
Defined.

(** [tell] served to a client that sends one request. *)
Lemma ws_streaming_pushes_and_stays_open_witness :
  exists w',
    ws_turn Pydantic.validate Pydantic.input_model tell_route tell_body
      (client_sent [empty_object]) = Continue w' /\
    wire w' = [EvAcquire; EvReceive "{}"; EvRelease;
               output_of (VStr "Hel"); output_of (VStr "lo")] /\
    inbox w' = [].
Proof.
  destruct (ws_streaming_pushes_and_stays_open Pydantic.validate Pydantic.input_model
              tell_route tell_body (client_sent [empty_object])
              empty_object [] [] ∅ ∅) as (_ & _ & _ & Hpush).
  - reflexivity.
  - reflexivity.
  - reflexivity.
  - reflexivity.
  - reflexivity.
  - reflexivity.
  - apply (Hpush [(streaming_handler, "Hel"); (async_streaming_handler, "lo")]
                 (Value (VStr "done"))).
    reflexivity.
Defined.

(** [chat] registered twice on a fresh gateway. *)
Lemma register_twice_is_noop_witness :
  _register_route chat_gateway chat HTTP = inr (chat_gateway, skipped chat) /\
  List.length (routes_named "Chat" chat_gateway) = 1.
Proof.
  destruct (register_twice_is_noop no_routes chat WEBSOCKET HTTP) as [_ Htwice].
  destruct (Htwice chat_gateway [] eq_refl) as [Hskip Hone].
  split; [exact Hskip|]. apply Hone. vm_compute. inversion 1.
Defined.

(** [whoami] called with an override for [USER] in a process that has
    none. *)
Lemma env_overrides_are_scoped_witness :
  fst (_create_http_route Pydantic.validate str whoami_body ∅ {[ "USER" := "ann" ]} at_home)
    = Returned (mkOutput (VStr "ann") "" "") /\
  environ (snd (_create_http_route Pydantic.validate str whoami_body ∅
                  {[ "USER" := "ann" ]} at_home)) !! "USER" = None /\
  environ (snd (ws_dispatch Pydantic.validate str (Some str) whoami_body ∅
                  {[ "USER" := "ann" ]} at_home)) = {[ "HOME" := "/root" ]}.
Proof.
  destruct (env_overrides_are_scoped Pydantic.validate str ∅ {[ "USER" := "ann" ]} at_home)
    as (Hhttp & Hsees & Hws & _).
  split; [|split].
  - etrans; [|reflexivity].
    exact (f_equal fst
             (Hsees "USER" "ann"
                (fun _ user => match user with
                               | Some name => Ret (Value (VStr name))
                               | None => Raise (KeyError "USER")
                               end) eq_refl)).
  - destruct (Hhttp whoami_body) as (_ & Hkeys & _).
    rewrite (Hkeys "USER"); [reflexivity|]. by eexists.
  - destruct (Hws (Some str) whoami_body) as [_ Hquiet].
    + vm_compute. discriminate.
    + apply Hquiet. intros data user. by destruct user.
Defined.

(** [numbers], whose annotation has no return type to find. *)
Lemma result_type_resolution_witness :
  _register_route no_routes numbers WEBSOCKET = inl (KeyError "return").
Proof.
  destruct result_type_resolution as (_ & _ & _ & _ & _ & _ & _ & Hraise).
  apply Hraise; [reflexivity|].
  simpl. inversion 1.
Defined.

(** Two clients of [chat]. *)
Lemma receive_lock_is_per_route_witness :
  exists s',
    websocket_connect chat_gateway "/chat" 2 = Some (chat_gateway, s') /\
    session_client s' = 2 /\
    session_lock s' = 0.
Proof.
  destruct (receive_lock_is_per_route chat_gateway) as (_ & Hconnect & _).
  destruct (Hconnect "/chat" 1 chat_gateway
              (Session 1 (Route "Chat" "/chat" WEBSOCKET chat [("question", str)] str 0) 0)
              eq_refl) as (_ & _ & Hother).
  destruct (Hother 2) as (s' & Hs' & Hclient & _ & Hlock).
  exists s'. by repeat split.
Defined.

(** [shout], which prints two lines and fails. *)
Lemma http_stdout_has_diagnostic_witness :
  stdout (mkOutput (VStr "") "no voice"
            (String.concat newline ["one"; "two"; "Got an exception: no voice"]))
  = String.concat newline (["one"; "two"] ++ ["Got an exception: no voice"]) /\
  fst (_create_http_route Pydantic.validate str shout_body ∅ ∅ (client_sent []))
  = Returned (mkOutput (VStr "") "no voice"
                (String.concat newline ["one"; "two"; "Got an exception: no voice"])).
Proof.
  split; [|reflexivity].
  apply (http_stdout_has_diagnostic Pydantic.validate str shout_body ∅ ∅
           (client_sent []) (World ∅ ["one"; "two"] [] [] false)
           (Exn true "RuntimeError" "no voice")).
  - reflexivity.
  - reflexivity.
Defined.

(** * Further properties of the gateway *)

(** ** Route names *)

Lemma register_registers self func rt self' printed :
  _register_route self func rt = inr (self', printed) ->
  route_name_of func ∈ map route_name (routes self').
Proof.
  intros Hreg.
  destruct (decide (route_name_of func ∈ map route_name (routes self))) as [Hin|Hout].
  - rewrite (register_collision _ _ rt Hin) in Hreg. by injection Hreg as <- <-.
  - rewrite (register_fresh _ _ rt Hout) in Hreg.
    destruct (_get_result_type func); [done|]. injection Hreg as <- <-.
    simpl. rewrite map_app. apply elem_of_app. right. simpl.
    by apply list_elem_of_singleton.
Qed.


Lemma to_upper_to_lower c : is_upper c = true -> to_upper (to_lower c) = c.
Proof.
  destruct c as [[] [] [] [] [] [] [] []]; vm_compute; intros; congruence.
Qed.

Lemma to_lower_cases c :
  (is_lower c = true /\ to_lower c = c) \/
  (is_upper c = true /\ is_lower c = false /\
   is_lower (to_lower c) = true) \/
  (is_upper c = false /\ is_lower c = false /\ to_lower c = c).
Proof.
  destruct c as [[] [] [] [] [] [] [] []]; vm_compute; tauto.
Qed.

(** [title] looks at the letters, not at their case. *)
Lemma title_from_lower previous_is_cased s :
  title_from previous_is_cased (lower s) = title_from previous_is_cased s.
Proof.
  revert previous_is_cased. induction s as [|c s IH]; intros cased; simpl; [done|].
  destruct (to_lower_cases c) as [[Hlow Heq]|[(Hup & Hnlow & Hlow)|(Hnup & Hnlow & Heq)]].
  - by rewrite Heq, Hlow, IH.
  - rewrite Hlow, Hnlow, Hup, IH. destruct cased; [done|].
    by rewrite to_upper_to_lower.
  - by rewrite Heq, Hnlow, Hnup, IH.
Qed.

(** Two functions whose names differ only in the case of their letters
    get the same route name: once one of them is registered, the other is
    skipped, whatever its route type. *)
Theorem names_differing_in_case_collide (self : registry) (f g : function)
    (rt rt' : RouteType) (self' : registry) (printed : list string) :
  lower (fn_name f) = lower (fn_name g) ->
  _register_route self f rt = inr (self', printed) ->
  route_name_of g = route_name_of f /\
  _register_route self' g rt' = inr (self', skipped g).
Proof.
  intros Hcase Hreg.
  assert (route_name_of g = route_name_of f) as Hname.
  { unfold route_name_of, title.
    by rewrite <- (title_from_lower false (fn_name g)),
               <- (title_from_lower false (fn_name f)), Hcase. }
  split; [done|]. apply register_collision. rewrite Hname.
  by eapply register_registers.
Qed.




(** ** Loading modules *)

Lemma get_result_type_raises func e :
  _get_result_type func = inl e ->
  exn_catchable e = true /\ exn_class e <> "ModuleNotFoundError".
Proof.
  unfold _get_result_type.
  destruct (fn_return func) as [[name [[[|first rest]|]|] [[r|]|]]|];
    intros [= <-]; by split.
Qed.

Lemma register_route_raises self func rt e :
  _register_route self func rt = inl e ->
  exn_catchable e = true /\ exn_class e <> "ModuleNotFoundError".
Proof.
  unfold _register_route. destruct (bool_decide _); [done|].
  destruct (_get_result_type func) as [e'|result_type] eqn:Hget; [|done].
  intros [= <-]. by eapply get_result_type_raises.
Qed.




(** The exception that stops the loop is one of registration. *)
Lemma register_members_raises self members e :
  (register_members self members).2 = Some e ->
  exn_catchable e = true /\ exn_class e <> "ModuleNotFoundError".
Proof.
  revert self. induction members as [|m rest IH]; intros self; simpl; [done|].
  destruct (member_serving m).
  - unfold _register_http_route.
    destruct (_register_route self (member_func m) HTTP) as [e'|[self1 printed]] eqn:Hreg;
      simpl.
    + intros [= <-]. by eapply register_route_raises.
    + specialize (IH self1).
      by destruct (register_members self1 rest) as [[self2 more] raised].
  - destruct (member_ws_serving m); [|by apply IH].
    unfold _register_ws_route.
    destruct (_register_route self (member_func m) WEBSOCKET) as [e'|[self1 printed]] eqn:Hreg;
      simpl.
    + intros [= <-]. by eapply register_route_raises.
    + specialize (IH self1).
      by destruct (register_members self1 rest) as [[self2 more] raised].
Qed.






(** Loading a module by name catches nothing that registration raises:
    for a module that imports, [_register_mod] ends as the loop over its
    members ends, exception included. *)
Theorem register_mod_lets_registration_errors_out (self : registry) (mod_ : string)
    (members : list member) :
  _register_mod self mod_ (inr members) = register_members self members.
Proof.
  unfold _register_mod.
  pose proof (register_members_raises self members) as Hraise.
  destruct (register_members self members) as [[self1 printed] [e|]]; simpl in *; [|done].
  destruct (Hraise e eq_refl) as [_ Hclass].
  by apply String.eqb_neq in Hclass as ->.
Qed.

(** Only functions that carry a marker are registered: every route after
    the loop was there before, or is the route of a member with
    [__serving__] (an HTTP route) or, failing that, with [__ws_serving__] (a
    WebSocket route). *)
Theorem register_members_only_marked (self : registry) (members : list member) (r : route) :
  r ∈ routes (register_members self members).1.1 ->
  r ∈ routes self \/
  exists m, m ∈ members /\ route_func r = member_func m /\
            ((member_serving m = true /\ route_type r = HTTP) \/
             (member_serving m = false /\ member_ws_serving m = true /\
              route_type r = WEBSOCKET)).
Proof.
  revert self. induction members as [|m rest IH]; intros self; simpl; [by left|].
  assert (forall rt self1 printed,
            _register_route self (member_func m) rt = inr (self1, printed) ->
            r ∈ routes self1 ->
            r ∈ routes self \/ (route_func r = member_func m /\ route_type r = rt)) as Hone.
  { intros rt self1 printed. unfold _register_route.
    destruct (bool_decide _); [intros [= <- <-]; by left|].
    destruct (_get_result_type (member_func m)); [done|]. intros [= <- <-]. simpl.
    intros [Hin|Hnew]%elem_of_app; [by left|].
    apply list_elem_of_singleton in Hnew as ->. by right. }
  assert (forall m', (exists m0, m0 ∈ rest /\ m' m0) -> exists m0, m0 ∈ m :: rest /\ m' m0)
    as Hrest.
  { intros m' (m0 & Hin & Hm0). exists m0. split; [by apply list_elem_of_further|done]. }
  destruct (member_serving m) eqn:Hs.
  - unfold _register_http_route.
    destruct (_register_route self (member_func m) HTTP) as [e|[self1 printed]] eqn:Hreg;
      simpl; [by left|].
    specialize (IH self1).
    destruct (register_members self1 rest) as [[self2 more] raised]; simpl in *.
    intros Hin. destruct (IH Hin) as [Hin1|Hex]; [|right; by apply Hrest].
    destruct (Hone _ _ _ Hreg Hin1) as [?|[Hf Ht]]; [by left|].
    right. exists m. split; [apply list_elem_of_here|]. split; [done|]. by left.
  - destruct (member_ws_serving m) eqn:Hws.
    + unfold _register_ws_route.
      destruct (_register_route self (member_func m) WEBSOCKET) as [e|[self1 printed]] eqn:Hreg;
        simpl; [by left|].
      specialize (IH self1).
      destruct (register_members self1 rest) as [[self2 more] raised]; simpl in *.
      intros Hin. destruct (IH Hin) as [Hin1|Hex]; [|right; by apply Hrest].
      destruct (Hone _ _ _ Hreg Hin1) as [?|[Hf Ht]]; [by left|].
      right. exists m. split; [apply list_elem_of_here|]. split; [done|]. by right.
    + intros Hin. destruct (IH self Hin) as [?|Hex]; [by left|right; by apply Hrest].
Qed.

(** ** The import path *)

(** [_fix_sys_path] only appends: the entries that were on the path stay
    in front, in their order; afterwards the working directory is on the
    path, and so is the application directory when it exists; nothing that
    is on the path is added again, so a path without duplicates stays
    without, and fixing a fixed path changes nothing. *)
Theorem fix_sys_path_appends_once (cwd APPDIR : string) (exists_ : bool)
    (sys_path : list string) :
  let fixed := _fix_sys_path cwd APPDIR exists_ sys_path in
  sys_path `prefix_of` fixed /\
  cwd ∈ fixed /\
  (exists_ = true -> APPDIR ∈ fixed) /\
  (NoDup sys_path -> NoDup fixed) /\
  _fix_sys_path cwd APPDIR exists_ fixed = fixed.
Proof.
  unfold _fix_sys_path.
  destruct (bool_decide (cwd ∈ sys_path)) eqn:Hcwd.
  - apply bool_decide_eq_true in Hcwd.
    destruct exists_; simpl.
    + destruct (bool_decide (APPDIR ∈ sys_path)) eqn:Happ; simpl.
      * apply bool_decide_eq_true in Happ.
        rewrite (bool_decide_eq_true_2 _ Hcwd). simpl.
        rewrite (bool_decide_eq_true_2 _ Happ). by repeat split.
      * apply bool_decide_eq_false in Happ.
        assert (cwd ∈ (sys_path ++ [APPDIR])%list) as Hcwd' by (apply elem_of_app; by left).
        assert (APPDIR ∈ (sys_path ++ [APPDIR])%list) as Happ'
            by (apply elem_of_app; right; by apply list_elem_of_singleton).
        rewrite (bool_decide_eq_true_2 _ Hcwd'). simpl.
        rewrite (bool_decide_eq_true_2 _ Happ'). repeat split; try done.
        -- by apply prefix_app_r.
        -- intros Hnodup. apply NoDup_app. split; [done|]. split; [|apply NoDup_singleton].
           intros x Hx Hnew. apply list_elem_of_singleton in Hnew as ->. done.
    + rewrite (bool_decide_eq_true_2 _ Hcwd). by repeat split.
  - apply bool_decide_eq_false in Hcwd.
    assert (cwd ∈ (sys_path ++ [cwd])%list) as Hcwd'
        by (apply elem_of_app; right; by apply list_elem_of_singleton).
    assert (NoDup sys_path -> NoDup (sys_path ++ [cwd])%list) as Hnd.
    { intros Hnodup. apply NoDup_app. split; [done|]. split; [|apply NoDup_singleton].
      intros x Hx Hnew. apply list_elem_of_singleton in Hnew as ->. done. }
    destruct exists_; simpl.
    + destruct (bool_decide (APPDIR ∈ (sys_path ++ [cwd])%list)) eqn:Happ; simpl.
      * apply bool_decide_eq_true in Happ.
        rewrite (bool_decide_eq_true_2 _ Hcwd'). simpl.
        rewrite (bool_decide_eq_true_2 _ Happ). repeat split; try done.
        by apply prefix_app_r.
      * apply bool_decide_eq_false in Happ.
        assert (cwd ∈ ((sys_path ++ [cwd]) ++ [APPDIR])%list) as Hcwd'' by (apply elem_of_app; by left).
        assert (APPDIR ∈ ((sys_path ++ [cwd]) ++ [APPDIR])%list) as Happ'
            by (apply elem_of_app; right; by apply list_elem_of_singleton).
        rewrite (bool_decide_eq_true_2 _ Hcwd''). simpl.
        rewrite (bool_decide_eq_true_2 _ Happ'). repeat split; try done.
        -- rewrite <- app_assoc. by apply prefix_app_r.
        -- intros Hnodup. apply NoDup_app. split; [by apply Hnd|].
           split; [|apply NoDup_singleton].
           intros x Hx Hnew. apply list_elem_of_singleton in Hnew as ->. done.
    + rewrite (bool_decide_eq_true_2 _ Hcwd'). repeat split; try done.
      by apply prefix_app_r.
Qed.

(** ** The HTTP port of the composite gateway *)

Module AgentGatewayFacts.
Import LangchainAgentGateway.

Lemma index_http_spec protocol i :
  index_http protocol = Some i <->
  protocol !! i = Some HTTP /\ forall j, j < i -> protocol !! j <> Some HTTP.
Proof.
  revert i. induction protocol as [|p rest IH]; intros i; simpl.
  - split; [done|]. by intros [? _].
  - destruct (is_http p) eqn:Hp.
    + destruct p; try done. split.
      * intros [= <-]. split; [done|]. intros j Hj. lia.
      * intros [Hi Hfirst]. destruct i as [|i]; [done|].
        exfalso. apply (Hfirst 0); [lia|done].
    + split.
      * destruct (index_http rest) as [i'|] eqn:Hrest; simpl; [|done].
        intros [= <-]. destruct (proj1 (IH i') eq_refl) as [Hi Hfirst]. split; [done|].
        intros [|j] Hj; simpl; [by destruct p|]. apply Hfirst. lia.
      * intros [Hi Hfirst]. destruct i as [|i]; simpl in Hi.
        { injection Hi as ->. done. }
        assert (index_http rest = Some i) as ->; [|done].
        apply IH. split; [done|]. intros j Hj. apply (Hfirst (S j)). lia.
Qed.

(** The gateway starts only when the port listed for the first HTTP
    protocol is 8081, and then moves that one port to 8082: no port is added
    or removed and every other port stays.  Conversely, with 8081 there it
    does start. *)
Theorem move_http_port_moves_8081 (protocol : list GatewayProtocolType) (port : list Z) :
  (forall port',
     move_http_port protocol port = inr port' ->
     exists i,
       protocol !! i = Some HTTP /\
       (forall j, j < i -> protocol !! j <> Some HTTP) /\
       port !! i = Some 8081%Z /\
       port' !! i = Some 8082%Z /\
       List.length port' = List.length port /\
       forall j, j <> i -> port' !! j = port !! j) /\
  (forall i,
     protocol !! i = Some HTTP ->
     (forall j, j < i -> protocol !! j <> Some HTTP) ->
     port !! i = Some 8081%Z ->
     move_http_port protocol port = inr (<[i := 8082%Z]> port)).
Proof.
  split.
  - intros port'. unfold move_http_port.
    destruct (index_http protocol) as [i|] eqn:Hidx; [|done].
    destruct (port !! i) as [http_port|] eqn:Hport; [|done].
    case_bool_decide as Hne; [done|]. intros [= <-].
    subst http_port.
    apply index_http_spec in Hidx as [Hi Hfirst].
    exists i. repeat split; try done.
    + apply list_lookup_insert_eq. by eapply lookup_lt_Some.
    + apply length_insert.
    + intros j Hj. by apply list_lookup_insert_ne.
  - intros i Hi Hfirst Hport. unfold move_http_port.
    assert (index_http protocol = Some i) as -> by by apply index_http_spec.
    rewrite Hport. by rewrite bool_decide_eq_false_2 by (intros H; by apply H).
Qed.


End AgentGatewayFacts.

(** ** The parameters posted to the agent *)






(** ** Merged documents *)

Module ChainExecutorFacts.
Import ChainExecutor.

Lemma merge_doc_new doc da :
  doc_id doc ∉ ids da -> merge_doc doc da = (da ++ [doc])%list.
Proof.
  induction da as [|d rest IH]; simpl; [done|].
  intros [Hne Hrest]%not_elem_of_cons.
  destruct (String.eqb_spec (doc_id d) (doc_id doc)) as [Heq|_]; [done|].
  by rewrite IH.
Qed.

Lemma merge_doc_known doc da :
  doc_id doc ∈ ids da -> ids (merge_doc doc da) = ids da.
Proof.
  induction da as [|d rest IH]; simpl; [by intros ?%elem_of_nil|].
  intros Hin. destruct (String.eqb_spec (doc_id d) (doc_id doc)) as [Heq|Hne]; [done|].
  simpl. f_equal. apply IH. apply elem_of_cons in Hin as [Heq|Hin]; [done|done].
Qed.

Lemma merge_all_flat docs_map :
  _handle_merge docs_map =
  fold_left (fun da doc => merge_doc doc da) (List.concat (map snd docs_map)) [].
Proof.
  unfold _handle_merge. generalize (@nil Document) as da.
  induction docs_map as [|[k v] rest IH]; intros da; simpl; [done|].
  by rewrite fold_left_app, IH.
Qed.

Lemma merge_all_ids docs da :
  NoDup (ids da) ->
  let merged := fold_left (fun da doc => merge_doc doc da) docs da in
  NoDup (ids merged) /\
  forall id, id ∈ ids merged <-> id ∈ ids da \/ id ∈ ids docs.
Proof.
  revert da. induction docs as [|doc rest IH]; intros da Hnodup; simpl.
  - split; [done|]. intros id. split; [by left|]. by intros [?|?%elem_of_nil].
  - destruct (decide (doc_id doc ∈ ids da)) as [Hin|Hout].
    + destruct (IH (merge_doc doc da)) as [Hnd Hids].
      { by rewrite merge_doc_known. }
      split; [done|]. intros id. rewrite Hids, merge_doc_known by done.
      rewrite elem_of_cons. split; [tauto|]. intros [?|[->|?]]; tauto.
    + destruct (IH (merge_doc doc da)) as [Hnd Hids].
      { rewrite merge_doc_new by done. unfold ids. rewrite map_app. simpl.
        apply NoDup_app. split; [done|]. split; [|apply NoDup_singleton].
        intros x Hx Hnew. apply list_elem_of_singleton in Hnew as ->. done. }
      split; [done|]. intros id. rewrite Hids, merge_doc_new by done.
      unfold ids. rewrite map_app, elem_of_app. simpl.
      rewrite list_elem_of_singleton, elem_of_cons. tauto.
Qed.

Lemma merge_all_distinct docs da :
  NoDup (ids da ++ ids docs) ->
  fold_left (fun da doc => merge_doc doc da) docs da = (da ++ docs)%list.
Proof.
  revert da. induction docs as [|doc rest IH]; intros da Hnodup; simpl.
  - by rewrite app_nil_r.
  - assert (doc_id doc ∉ ids da) as Hout.
    { apply NoDup_app in Hnodup as (_ & Hsep & _). intros Hin.
      apply (Hsep _ Hin). simpl. apply list_elem_of_here. }
    rewrite merge_doc_new by done. rewrite IH.
    + by rewrite <- app_assoc.
    + unfold ids in *. rewrite map_app. simpl. by rewrite <- app_assoc.
Qed.

(** The merged array has every id of the arrays it was made from, each
    once, and no other id. *)
Theorem handle_merge_ids (docs_map : list (string * list Document)) :
  NoDup (ids (_handle_merge docs_map)) /\
  forall id,
    id ∈ ids (_handle_merge docs_map) <->
    exists key docs doc,
      (key, docs) ∈ docs_map /\ doc ∈ docs /\ doc_id doc = id.
Proof.
  rewrite merge_all_flat.
  destruct (merge_all_ids (List.concat (map snd docs_map)) [] (NoDup_nil_2)) as [Hnd Hids].
  split; [done|]. intros id. rewrite Hids. split.
  - intros [?%elem_of_nil|Hin]; [done|].
    apply list_elem_of_fmap in Hin as (doc & -> & Hdoc).
    apply list_elem_of_In, in_concat in Hdoc as (docs & Hdocs & Hdoc).
    apply list_elem_of_In, list_elem_of_fmap in Hdocs as ([key docs'] & -> & Hkv).
    exists key, docs', doc. split; [done|]. split; [by apply list_elem_of_In|done].
  - intros (key & docs & doc & Hkv & Hdoc & <-). right.
    apply list_elem_of_fmap. exists doc. split; [done|].
    apply list_elem_of_In, in_concat. exists docs. split; [|by apply list_elem_of_In].
    apply list_elem_of_In, list_elem_of_fmap. by exists (key, docs).
Qed.

(** When no id occurs twice in the arrays, merging them is putting them
    one after the other: no document is changed. *)
Theorem handle_merge_distinct (docs_map : list (string * list Document)) :
  NoDup (ids (List.concat (map snd docs_map))) ->
  _handle_merge docs_map = List.concat (map snd docs_map).
Proof.
  intros Hnodup. rewrite merge_all_flat. by rewrite merge_all_distinct.
Qed.

End ChainExecutorFacts.

(** ** More on the WebSocket handler *)

Section WebSocketTurns.

Variable validate : annotation -> pyvalue -> string + pyvalue.
Variable input_model :
  list (string * annotation) -> list (string * pyvalue) ->
  string + (gmap string pyvalue * gmap string string).

Lemma no_yield_lock (y : Empty_set) (w : world) :
  fst (no_yield y w) <> Blocked /\ locked (snd (no_yield y w)) = locked w.
Proof. destruct y. Qed.

Lemma send_stream_lock rt (y : pyvalue) (w : world) :
  fst (send_stream validate rt y w) <> Blocked /\
  locked (snd (send_stream validate rt y w)) = locked w.
Proof. by destruct (send_stream_keeps validate rt y w) as (? & _ & _ & ?). Qed.

(** With the lock free, the dispatch does not wait and leaves the lock
    free. *)
Lemma ws_dispatch_lock_free rt ra func data envs w :
  locked w = false ->
  fst (ws_dispatch validate rt ra func data envs w) <> Blocked /\
  locked (snd (ws_dispatch validate rt ra func data envs w)) = false.
Proof.
  intros Hfree. unfold ws_dispatch, EnvironmentVarCtxtManager.
  set (w_in := set_environ (env_apply envs (environ w)) w).
  assert (locked w_in = false) as Hin by done. clearbody w_in.
  destruct (is_type_streaming_response ra) as [e|[|]]; simpl.
  - by destruct (exn_catchable e), (String.eqb (exn_text e) "").
  - destruct (run_lock_free validate rt true no_yield (func (with_handlers data))
                no_yield_lock w_in Hin) as [Hret Hlock].
    destruct (run validate rt true no_yield (func (with_handlers data)) w_in)
      as [[r|e|] w1]; simpl in *; try done.
    by destruct (exn_catchable e), (String.eqb (exn_text e) "").
  - destruct (run_lock_free validate rt false no_yield (func data)
                no_yield_lock w_in Hin) as [Hret Hlock].
    destruct (run validate rt false no_yield (func data) w_in)
      as [[[v|gen]|e|] w1]; simpl in *; try done.
    + destruct (output_model validate rt v "" ""); simpl; [|done].
      by destruct (exn_catchable e), (String.eqb (exn_text e) "").
    + destruct (run_lock_free validate rt false (send_stream validate rt) gen
                  (send_stream_lock rt) w1 Hlock) as [Hgret Hglock].
      destruct (run validate rt false (send_stream validate rt) gen w1)
        as [[[]|e|] w2]; simpl in *; try done.
      by destruct (exn_catchable e), (String.eqb (exn_text e) "").
    + by destruct (exn_catchable e), (String.eqb (exn_text e) "").
Qed.

Lemma ws_serve_lock_free r func _data w :
  locked w = false ->
  match ws_serve validate input_model r func _data w with
  | Waiting _ => False
  | t => locked (turn_world t) = false
  end.
Proof.
  intros Hfree. unfold ws_serve. destruct _data as [| | | | |items|]; try done.
  destruct (input_model (route_input_fields r) items) as [detail|[data envs]].
  - by destruct (output_model validate _ _ _ _).
  - destruct (ws_dispatch_lock_free (route_result_type r) (fn_return (route_func r))
                func data envs w Hfree) as [Hret Hlock].
    by destruct (ws_dispatch validate _ _ func data envs w) as [[[|]|e|] w1].
Qed.

Lemma ws_turn_lock_free r func w :
  locked w = false ->
  match ws_turn validate input_model r func w with
  | Waiting _ => False
  | t => locked (turn_world t) = false
  end.
Proof.
  intros Hfree. unfold ws_turn, acquire, receive_json, receive. rewrite Hfree. simpl.
  destruct (inbox w) as [|data rest]; simpl; [done|].
  destruct (frame_json data) as [_data|]; [|done].
  by apply ws_serve_lock_free.
Qed.

Lemma ws_loop_lock_free fuel r func w :
  locked w = false ->
  match ws_loop validate input_model fuel r func w with
  | Hung _ => False
  | Finished w' | Crashed _ w' | OutOfFuel w' => locked w' = false
  end.
Proof.
  revert w. induction fuel as [|fuel IH]; intros w Hfree; simpl; [done|].
  pose proof (ws_turn_lock_free r func w Hfree) as Hturn.
  destruct (ws_turn validate input_model r func w) as [w1|w1|e w1|w1]; simpl in *; try done.
  - by apply IH.
  - by destruct (String.eqb (exn_class e) "WebSocketDisconnect").
Qed.

(** A session that starts with the lock free comes to an end, finished or
    crashed, after at most one turn for each frame of the client and one
    more; it never waits for the lock, and it leaves the lock free. *)
Theorem ws_session_ends_with_lock_free (r : route)
    (func : gmap string pyvalue -> body unit) (w : world) :
  locked w = false ->
  exists w',
    (_create_ws_route validate input_model r func w = Finished w' \/
     exists e, _create_ws_route validate input_model r func w = Crashed e w') /\
    locked w' = false.
Proof.
  intros Hfree.
  pose proof (ws_route_has_fuel validate input_model r func w) as Hfuel.
  pose proof (ws_loop_lock_free (S (List.length (inbox w))) r func (accept w) Hfree) as Hlock.
  unfold _create_ws_route in *.
  destruct (ws_loop validate input_model (S (List.length (inbox w))) r func (accept w))
    as [w'|e w'|w'|w'].
  - exists w'. split; [by left|done].
  - exists w'. split; [right; by exists e|done].
  - done.
  - by destruct (Hfuel w').
Qed.

(** A client that connects and is gone before it has sent anything: the
    session ends, with a line printed, nothing sent and the function never
    called. *)
Theorem ws_disconnect_ends_session (r : route)
    (func : gmap string pyvalue -> body unit) (w : world) :
  locked w = false ->
  inbox w = [] ->
  _create_ws_route validate input_model r func w =
  Finished (World (environ w) (sys_stdout w ++ ["Client disconnected"]) []
                  (wire w ++ [EvAccept; EvAcquire; EvRelease]) false).
Proof.
  intros Hfree Hin. unfold _create_ws_route. rewrite Hin. simpl.
  rewrite (ws_turn_disconnected validate input_model r func (accept w)) by done.
  simpl. unfold print, set_stdout. simpl. by rewrite <- app_assoc.
Qed.

(** A frame that is not JSON, or is JSON but not an object, crashes the
    session: the exception is not caught, nothing is sent, the lock is
    released, and the function is never called. *)
Theorem ws_malformed_frame_crashes (r : route)
    (func : gmap string pyvalue -> body unit) (w : world) (data : frame) (rest : list frame) :
  locked w = false ->
  inbox w = data :: rest ->
  let w' := World (environ w) (sys_stdout w) rest
                  (wire w ++ [EvAccept; EvAcquire; EvReceive (frame_text data); EvRelease])
                  false in
  (frame_json data = None ->
   _create_ws_route validate input_model r func w = Crashed JSONDecodeError w') /\
  (forall _data,
     frame_json data = Some _data ->
     (forall items, _data <> VDict items) ->
     _create_ws_route validate input_model r func w =
     Crashed (TypeError "argument after ** must be a mapping") w').
Proof.
  intros Hfree Hin w'. split.
  - intros Hjson. unfold _create_ws_route. simpl.
    unfold ws_turn, acquire, receive_json, receive. simpl. rewrite Hfree, Hin. simpl.
    rewrite Hjson. simpl. unfold w', release. simpl. by rewrite <- !app_assoc.
  - intros _data Hjson Hshape. unfold _create_ws_route. simpl.
    rewrite (ws_turn_received validate input_model r func (accept w) data rest _data)
      by done.
    unfold ws_serve, w', after_receive. simpl.
    destruct _data as [| | | | |items|]; try (by rewrite <- !app_assoc).
    by destruct (Hshape items).
Qed.

End WebSocketTurns.

Section WebSocketAnswers.

Variable validate : annotation -> pyvalue -> string + pyvalue.
Variable input_model :
  list (string * annotation) -> list (string * pyvalue) ->
  string + (gmap string pyvalue * gmap string string).

(** What the adapter prints when it has caught an exception in the
    dispatch. *)
Lemma ws_dispatch_caught rt ra func data envs w e w_out :
  let w_in := set_environ (env_apply envs (environ w)) w in
  match is_type_streaming_response ra with
  | inl e' => e' = e /\ w_out = w_in
  | inr true =>
      run validate rt true no_yield (func (with_handlers data)) w_in = (Raised e, w_out)
  | inr false =>
      run validate rt false no_yield (func data) w_in = (Raised e, w_out)
  end ->
  ws_dispatch validate rt ra func data envs w =
  if exn_catchable e then
    (Returned false,
     set_environ (env_restore envs (environ w) (environ w_out))
       (let w1 := print ("Got an exception: " ++ exn_text e) w_out in
        if String.eqb (exn_text e) "" then w1 else print ("Error: " ++ exn_text e) w1))
  else (Raised e, set_environ (env_restore envs (environ w) (environ w_out)) w_out).
Proof.
  intros w_in. unfold ws_dispatch, EnvironmentVarCtxtManager. fold w_in.
  destruct (is_type_streaming_response ra) as [e'|[|]].
  - intros [-> ->]. by destruct (exn_catchable e), (String.eqb (exn_text e) "").
  - intros ->. by destruct (exn_catchable e), (String.eqb (exn_text e) "").
  - intros ->. by destruct (exn_catchable e), (String.eqb (exn_text e) "").
Qed.

(** A function that is neither streaming nor a generator: when it returns
    a value that the result type accepts, the adapter sends exactly one
    output, with the validated value and empty error, and the loop goes
    on. *)
Theorem ws_simple_sends_one_output (r : route)
    (func : gmap string pyvalue -> body unit) (w : world)
    (data : frame) (rest : list frame) (items : list (string * pyvalue))
    (kw : gmap string pyvalue) (envs : gmap string string)
    (v v' : pyvalue) (w_out : world) :
  locked w = false ->
  inbox w = data :: rest ->
  frame_json data = Some (VDict items) ->
  input_model (route_input_fields r) items = inr (kw, envs) ->
  is_type_streaming_response (fn_return (route_func r)) = inr false ->
  run validate (route_result_type r) false no_yield (func kw)
      (set_environ (env_apply envs (environ w)) (after_receive data rest w))
    = (Returned (Value v), w_out) ->
  validate (route_result_type r) v = inr v' ->
  exists w',
    ws_turn validate input_model r func w = Continue w' /\
    wire w' = (wire w_out ++ [output_of v'])%list /\
    inbox w' = inbox w_out /\
    sys_stdout w' = sys_stdout w_out.
Proof.
  intros Hfree Hin Hjson Hvalid Hmode Hrun Hv.
  rewrite (ws_turn_received validate input_model r func w data rest (VDict items)) by done.
  unfold ws_serve. rewrite Hvalid.
  unfold ws_dispatch, EnvironmentVarCtxtManager, output_model. rewrite Hmode.
  change (environ (after_receive data rest w)) with (environ w).
  rewrite Hrun, Hv. simpl. by eexists.
Qed.

(** When the function raises an [Exception] while it serves a request,
    whatever the mode, the adapter sends nothing: it prints the exception
    and the loop goes on.  An exception that is no [Exception] escapes the
    loop, and nothing is printed for it. *)
Theorem ws_function_failure_is_not_sent (r : route)
    (func : gmap string pyvalue -> body unit) (w : world)
    (data : frame) (rest : list frame) (items : list (string * pyvalue))
    (kw : gmap string pyvalue) (envs : gmap string string)
    (streaming : bool) (e : exn) (w_out : world) :
  locked w = false ->
  inbox w = data :: rest ->
  frame_json data = Some (VDict items) ->
  input_model (route_input_fields r) items = inr (kw, envs) ->
  is_type_streaming_response (fn_return (route_func r)) = inr streaming ->
  run validate (route_result_type r) streaming no_yield
      (func (if streaming then with_handlers kw else kw))
      (set_environ (env_apply envs (environ w)) (after_receive data rest w))
    = (Raised e, w_out) ->
  exists w',
    ws_turn validate input_model r func w =
      (if exn_catchable e then Continue w' else Escaped e w') /\
    wire w' = wire w_out /\
    inbox w' = inbox w_out /\
    sys_stdout w' =
      (sys_stdout w_out ++
         if exn_catchable e then
           ("Got an exception: " ++ exn_text e)%string ::
           (if String.eqb (exn_text e) "" then []
            else [("Error: " ++ exn_text e)%string])
         else [])%list.
Proof.
  intros Hfree Hin Hjson Hvalid Hmode Hrun.
  rewrite (ws_turn_received validate input_model r func w data rest (VDict items)) by done.
  unfold ws_serve. rewrite Hvalid.
  rewrite (ws_dispatch_caught _ _ func kw envs (after_receive data rest w) e w_out).
  - destruct (exn_catchable e); eexists; (split; [reflexivity|]); simpl.
    + destruct (String.eqb (exn_text e) ""); simpl; [done|].
      by rewrite <- app_assoc.
    + by rewrite app_nil_r.
  - rewrite Hmode. by destruct streaming.
Qed.

(** A route whose return annotation has no [__name__]: every request that
    validates is answered by nothing.  The test for the streaming marker
    raises before the function is called; the adapter prints the exception,
    sends nothing and goes on, the environment as it was. *)
Theorem ws_unnamed_annotation_never_calls (r : route)
    (func : gmap string pyvalue -> body unit) (w : world)
    (data : frame) (rest : list frame) (items : list (string * pyvalue))
    (kw : gmap string pyvalue) (envs : gmap string string) (a : annotation) :
  locked w = false ->
  inbox w = data :: rest ->
  frame_json data = Some (VDict items) ->
  input_model (route_input_fields r) items = inr (kw, envs) ->
  fn_return (route_func r) = Some a ->
  ann_name a = None ->
  ws_turn validate input_model r func w =
  Continue (World (environ w)
                  (sys_stdout w ++ ["Got an exception: __name__"; "Error: __name__"])
                  rest
                  (wire w ++ [EvAcquire; EvReceive (frame_text data); EvRelease])
                  false).
Proof.
  intros Hfree Hin Hjson Hvalid Hret Hname.
  rewrite (ws_turn_received validate input_model r func w data rest (VDict items)) by done.
  unfold ws_serve. rewrite Hvalid.
  rewrite (ws_dispatch_caught _ _ func kw envs (after_receive data rest w)
             (AttributeError "__name__")
             (set_environ (env_apply envs (environ w)) (after_receive data rest w))).
  - simpl. unfold set_environ, print, set_stdout. simpl.
    rewrite env_restore_apply. by rewrite <- app_assoc.
  - rewrite Hret. unfold is_type_streaming_response. by rewrite Hname.
Qed.

Lemma run_yield_all_rejected rt (ys zs : list pyvalue) (bad : pyvalue) detail (w : world) :
  Forall (fun y => validate rt y = inr y) ys ->
  validate rt bad = inl detail ->
  run validate rt false (send_stream validate rt)
      (@yield_all unit (ys ++ bad :: zs)) w =
  (Raised (ValidationError detail),
   World (environ w) (sys_stdout w) (inbox w) (wire w ++ map output_of ys) (locked w)).
Proof.
  intros Hys Hbad. revert w. induction Hys as [|y ys Hy _ IH]; intros w; simpl.
  - unfold send_stream, output_model. rewrite Hbad. rewrite app_nil_r. by destruct w.
  - unfold send_stream at 1, output_model. rewrite Hy. rewrite IH. simpl.
    by rewrite <- app_assoc.
Qed.

(** A generator that yields an item which the result type rejects: the
    outputs for the items before it have been sent, the rejected item and
    those after it are not, and the connection is not closed: the adapter
    prints the validation error and goes on to the next request. *)
Theorem ws_generator_stops_at_rejected_item (r : route)
    (func : gmap string pyvalue -> body unit) (w : world)
    (data : frame) (rest : list frame) (items : list (string * pyvalue))
    (kw : gmap string pyvalue) (envs : gmap string string)
    (ys zs : list pyvalue) (bad : pyvalue) (detail : string) :
  locked w = false ->
  inbox w = data :: rest ->
  frame_json data = Some (VDict items) ->
  input_model (route_input_fields r) items = inr (kw, envs) ->
  is_type_streaming_response (fn_return (route_func r)) = inr false ->
  func kw = Ret (Generator (yield_all (ys ++ bad :: zs))) ->
  Forall (fun y => validate (route_result_type r) y = inr y) ys ->
  validate (route_result_type r) bad = inl detail ->
  exists w',
    ws_turn validate input_model r func w = Continue w' /\
    wire w' = (wire w ++ [EvAcquire; EvReceive (frame_text data); EvRelease]
                 ++ map output_of ys)%list /\
    inbox w' = rest /\
    sys_stdout w' =
      (sys_stdout w ++
         ("Got an exception: " ++ detail)%string ::
         (if String.eqb detail "" then [] else [("Error: " ++ detail)%string]))%list.
Proof.
  intros Hfree Hin Hjson Hvalid Hmode Hgen Hys Hbad.
  rewrite (ws_turn_received validate input_model r func w data rest (VDict items)) by done.
  unfold ws_serve. rewrite Hvalid.
  unfold ws_dispatch, EnvironmentVarCtxtManager. rewrite Hmode, Hgen. simpl.
  rewrite (run_yield_all_rejected _ ys zs bad detail) by done. simpl.
  destruct (String.eqb detail ""); eexists; (split; [reflexivity|]); simpl.
  - split; [by rewrite <- !app_assoc|done].
  - split; [by rewrite <- !app_assoc|]. split; [done|]. by rewrite <- app_assoc.
Qed.

(** A request that fails validation is answered without the function: the
    turn is the same whatever the function is.  When the result type accepts
    the empty string, the answer is one output with that result and the
    validation detail as error, and the loop goes on. *)
Theorem ws_invalid_request_is_answered (r : route)
    (func : gmap string pyvalue -> body unit) (w : world)
    (data : frame) (rest : list frame) (items : list (string * pyvalue))
    (detail : string) (v : pyvalue) :
  locked w = false ->
  inbox w = data :: rest ->
  frame_json data = Some (VDict items) ->
  input_model (route_input_fields r) items = inl detail ->
  (forall func', ws_turn validate input_model r func' w =
                 ws_turn validate input_model r func w) /\
  (validate (route_result_type r) (VStr "") = inr v ->
   ws_turn validate input_model r func w =
   Continue (World (environ w)
                   (sys_stdout w ++ [("Got an exception: " ++ detail)%string])
                   rest
                   (wire w ++ [EvAcquire; EvReceive (frame_text data); EvRelease;
                               EvSend (MOutput (mkOutput v detail ""))])
                   false)).
Proof.
  intros Hfree Hin Hjson Hinvalid. split.
  - intros func'.
    rewrite !(ws_turn_received validate input_model r _ w data rest (VDict items)) by done.
    by rewrite !(ws_serve_invalid validate input_model r _ items detail _ Hinvalid).
  - intros Hempty.
    rewrite (ws_turn_received validate input_model r func w data rest (VDict items)) by done.
    rewrite (ws_serve_invalid validate input_model r func items detail) by done.
    simpl. rewrite Hempty. unfold send, log, print, set_stdout, after_receive. simpl.
    by rewrite <- !app_assoc.
Qed.

End WebSocketAnswers.

(** ** More on the HTTP handler *)

(** What the HTTP handler answers when the output model accepts the
    result: the validated return value with an empty error when the function
    returns, the validated empty string with the text of the exception when
    it raises an [Exception]; in both cases with the captured lines.  An
    exception that is no [Exception] is not answered: it escapes. *)
Theorem http_route_answers
    (validate : annotation -> pyvalue -> string + pyvalue)
    (rt : annotation) (func : gmap string pyvalue -> body Empty_set)
    (data : gmap string pyvalue) (envs : gmap string string) (w w1 : world) :
  (forall r v,
     http_call validate rt func data envs w = (Returned r, w1) ->
     validate rt (value_of r) = inr v ->
     fst (_create_http_route validate rt func data envs w) =
     Returned (mkOutput v "" (String.concat newline (sys_stdout w1)))) /\
  (forall e v,
     http_call validate rt func data envs w = (Raised e, w1) ->
     exn_catchable e = true ->
     validate rt (VStr "") = inr v ->
     fst (_create_http_route validate rt func data envs w) =
     Returned (mkOutput v (exn_text e)
                 (String.concat newline
                    (sys_stdout w1 ++ [("Got an exception: " ++ exn_text e)%string])))) /\
  (forall e,
     http_call validate rt func data envs w = (Raised e, w1) ->
     exn_catchable e = false ->
     fst (_create_http_route validate rt func data envs w) = Raised e).
Proof.
  split; [|split].
  - intros r v Hcall Hv. by rewrite (http_route_on_return _ _ _ _ _ _ _ _ Hcall), Hv.
  - intros e v Hcall Hcatch Hv.
    by rewrite (http_route_on_raise _ _ _ _ _ _ _ _ Hcall Hcatch), Hv.
  - intros e. apply http_route_on_escape.
Qed.

(** What an HTTP call leaves on the output stream of the process: nothing
    of what was printed during the call, which was captured; only, after a
    failure with a text, the line [Error: ...] that the handler prints
    outside the capture, whether or not the output model then accepts the
    result. *)
Theorem http_route_process_stdout
    (validate : annotation -> pyvalue -> string + pyvalue)
    (rt : annotation) (func : gmap string pyvalue -> body Empty_set)
    (data : gmap string pyvalue) (envs : gmap string string) (w w1 : world) :
  (forall r,
     http_call validate rt func data envs w = (Returned r, w1) ->
     sys_stdout (snd (_create_http_route validate rt func data envs w)) = sys_stdout w) /\
  (forall e,
     http_call validate rt func data envs w = (Raised e, w1) ->
     exn_catchable e = true ->
     sys_stdout (snd (_create_http_route validate rt func data envs w)) =
     (sys_stdout w ++
        if String.eqb (exn_text e) "" then [] else [("Error: " ++ exn_text e)%string])%list).
Proof.
  unfold http_call, _create_http_route, EnvironmentVarCtxtManager, Capturing.
  split.
  - intros r ->. simpl. by destruct (output_model validate rt (value_of r) "" _).
  - intros e -> ->. simpl.
    destruct (String.eqb (exn_text e) ""),
             (output_model validate rt (VStr "") (exn_text e) _); simpl;
      by rewrite ?app_nil_r.
Qed.

(** ** The further properties at work *)


Lemma names_differing_in_case_collide_witness :
  route_name_of myFunc = route_name_of myfunc /\
  _register_route (registered no_routes myfunc HTTP) myFunc WEBSOCKET =
  inr (registered no_routes myfunc HTTP, skipped myFunc).
Proof.
  apply (names_differing_in_case_collide no_routes myfunc myFunc HTTP WEBSOCKET
           (registered no_routes myfunc HTTP) []).
  - reflexivity.
  - reflexivity.
Defined.




Lemma register_members_only_marked_witness :
  chat_route ∈ routes no_routes \/
  exists m, m ∈ app_members /\ route_func chat_route = member_func m /\
            ((member_serving m = true /\ route_type chat_route = HTTP) \/
             (member_serving m = false /\ member_ws_serving m = true /\
              route_type chat_route = WEBSOCKET)).
Proof.
  apply (register_members_only_marked no_routes app_members chat_route).
  apply list_elem_of_here.
Defined.

Lemma fix_sys_path_appends_once_witness :
  _fix_sys_path "/work" "/appdir" true ["/usr/lib"] = ["/usr/lib"; "/work"; "/appdir"] /\
  "/appdir" ∈ _fix_sys_path "/work" "/appdir" true ["/usr/lib"] /\
  NoDup (_fix_sys_path "/work" "/appdir" true ["/usr/lib"]).
Proof.
  destruct (fix_sys_path_appends_once "/work" "/appdir" true ["/usr/lib"])
    as (_ & _ & Happ & Hnodup & _).
  split; [reflexivity|]. split.
  - apply Happ. reflexivity.
  - apply Hnodup. apply NoDup_singleton.
Defined.

Lemma move_http_port_moves_8081_witness :
  LangchainAgentGateway.move_http_port
    [LangchainAgentGateway.GRPC; LangchainAgentGateway.HTTP] [12345%Z; 8081%Z]
  = inr [12345%Z; 8082%Z].
Proof.
  apply (proj2 (AgentGatewayFacts.move_http_port_moves_8081
                  [LangchainAgentGateway.GRPC; LangchainAgentGateway.HTTP]
                  [12345%Z; 8081%Z]) 1).
  - reflexivity.
  - intros [|j] Hj; [discriminate|lia].
  - reflexivity.
Defined.



Lemma handle_merge_ids_witness :
  "1" ∈ ChainExecutor.ids (ChainExecutor._handle_merge shared_docs) /\
  ChainExecutor.ids (ChainExecutor._handle_merge shared_docs) = ["1"; "2"].
Proof.
  split; [|reflexivity].
  apply (proj2 (ChainExecutorFacts.handle_merge_ids shared_docs)).
  exists "second", [ChainExecutor.Doc "1" {[ "result" := VStr "done" ]}],
         (ChainExecutor.Doc "1" {[ "result" := VStr "done" ]}).
  split; [|split; [|reflexivity]].
  - apply list_elem_of_further, list_elem_of_here.
  - apply list_elem_of_here.
Defined.

Lemma handle_merge_distinct_witness :
  ChainExecutor._handle_merge separate_docs =
  [ChainExecutor.Doc "1" ∅; ChainExecutor.Doc "2" ∅].
Proof.
  apply (ChainExecutorFacts.handle_merge_distinct separate_docs).
  simpl. apply NoDup_cons. split.
  - intros Hin. apply list_elem_of_singleton in Hin. discriminate Hin.
  - apply NoDup_singleton.
Defined.

Lemma ws_session_ends_with_lock_free_witness :
  exists w',
    (_create_ws_route Pydantic.validate Pydantic.input_model hitl_route hitl_body
       (client_sent [empty_object; Frame "Ann" None]) = Finished w' \/
     exists e,
       _create_ws_route Pydantic.validate Pydantic.input_model hitl_route hitl_body
         (client_sent [empty_object; Frame "Ann" None]) = Crashed e w') /\
    locked w' = false.
Proof.
  apply (ws_session_ends_with_lock_free Pydantic.validate Pydantic.input_model
           hitl_route hitl_body (client_sent [empty_object; Frame "Ann" None])).
  reflexivity.
Defined.

Lemma ws_disconnect_ends_session_witness :
  _create_ws_route Pydantic.validate Pydantic.input_model chat_route parse_body
    (client_sent []) =
  Finished (World ∅ ["Client disconnected"] [] [EvAccept; EvAcquire; EvRelease] false).
Proof.
  apply (ws_disconnect_ends_session Pydantic.validate Pydantic.input_model
           chat_route parse_body (client_sent [])).
  - reflexivity.
  - reflexivity.
Defined.

Lemma ws_malformed_frame_crashes_witness :
  _create_ws_route Pydantic.validate Pydantic.input_model chat_route parse_body
    (client_sent [Frame "hello" None]) =
  Crashed JSONDecodeError
    (World ∅ [] [] [EvAccept; EvAcquire; EvReceive "hello"; EvRelease] false).
Proof.
  apply (proj1 (ws_malformed_frame_crashes Pydantic.validate Pydantic.input_model
                  chat_route parse_body (client_sent [Frame "hello" None])
                  (Frame "hello" None) [] eq_refl eq_refl)).
  reflexivity.
Defined.

(** [parse] over WebSocket, asked for the number in [42]. *)
Lemma ws_simple_sends_one_output_witness :
  exists w',
    ws_turn Pydantic.validate Pydantic.input_model (parse_route WEBSOCKET) parse_body
      (client_sent [text_request "42"]) = Continue w' /\
    wire w' = [EvAcquire; EvReceive (frame_text (text_request "42")); EvRelease;
               output_of (VInt 42)] /\
    inbox w' = [] /\
    sys_stdout w' = [].
Proof.
  eapply (ws_simple_sends_one_output Pydantic.validate Pydantic.input_model
            (parse_route WEBSOCKET) parse_body (client_sent [text_request "42"])
            (text_request "42") [] [("text", VStr "42")] _ _ (VInt 42) (VInt 42)
            (World ∅ [] []
                   [EvAcquire; EvReceive (frame_text (text_request "42")); EvRelease]
                   false)).
  - reflexivity.
  - reflexivity.
  - reflexivity.
  - reflexivity.
  - reflexivity.
  - reflexivity.
  - reflexivity.
Defined.

(** [parse] over WebSocket, asked for the number in [abc]. *)
Lemma ws_function_failure_is_not_sent_witness :
  exists w',
    ws_turn Pydantic.validate Pydantic.input_model (parse_route WEBSOCKET) parse_body
      (client_sent [text_request "abc"]) = Continue w' /\
    wire w' = [EvAcquire; EvReceive (frame_text (text_request "abc")); EvRelease] /\
    inbox w' = [] /\
    sys_stdout w' =
      ["Got an exception: invalid literal for int() with base 10: 'abc'";
       "Error: invalid literal for int() with base 10: 'abc'"].
Proof.
  eapply (ws_function_failure_is_not_sent Pydantic.validate Pydantic.input_model
            (parse_route WEBSOCKET) parse_body (client_sent [text_request "abc"])
            (text_request "abc") [] [("text", VStr "abc")] _ _ false
            (Exn true "ValueError" "invalid literal for int() with base 10: 'abc'")
            (World ∅ [] []
                   [EvAcquire; EvReceive (frame_text (text_request "abc")); EvRelease]
                   false)).
  - reflexivity.
  - reflexivity.
  - reflexivity.
  - reflexivity.
  - reflexivity.
  - reflexivity.
Defined.

Lemma ws_unnamed_annotation_never_calls_witness :
  ws_turn Pydantic.validate Pydantic.input_model unnamed_letters_route letters_body
    (client_sent [empty_object]) =
  Continue (World ∅ ["Got an exception: __name__"; "Error: __name__"] []
                  [EvAcquire; EvReceive "{}"; EvRelease] false).
Proof.
  eapply (ws_unnamed_annotation_never_calls Pydantic.validate Pydantic.input_model
            unnamed_letters_route letters_body (client_sent [empty_object])
            empty_object [] [] _ _ (unnamed_Iterator_of str)).
  - reflexivity.
  - reflexivity.
  - reflexivity.
  - reflexivity.
  - reflexivity.
  - reflexivity.
Defined.

Lemma ws_generator_stops_at_rejected_item_witness :
  exists w',
    ws_turn Pydantic.validate Pydantic.input_model mixed_route mixed_body
      (client_sent [empty_object]) = Continue w' /\
    wire w' = [EvAcquire; EvReceive "{}"; EvRelease; output_of (VInt 1)] /\
    inbox w' = [] /\
    sys_stdout w' = ["Got an exception: value is not a valid integer";
                     "Error: value is not a valid integer"].
Proof.
  eapply (ws_generator_stops_at_rejected_item Pydantic.validate Pydantic.input_model
            mixed_route mixed_body (client_sent [empty_object])
            empty_object [] [] _ _ [VInt 1] [VInt 3] (VStr "x")
            "value is not a valid integer").
  - reflexivity.
  - reflexivity.
  - reflexivity.
  - reflexivity.
  - reflexivity.
  - reflexivity.
  - repeat constructor.
  - reflexivity.
Defined.

(** [chat] asked without its [question]. *)
Lemma ws_invalid_request_is_answered_witness :
  ws_turn Pydantic.validate Pydantic.input_model chat_route parse_body
    (client_sent [empty_object]) =
  Continue (World ∅ ["Got an exception: question: field required"] []
                  [EvAcquire; EvReceive "{}"; EvRelease;
                   EvSend (MOutput (mkOutput (VStr "") "question: field required" ""))]
                  false).
Proof.
  apply (proj2 (ws_invalid_request_is_answered Pydantic.validate Pydantic.input_model
                  chat_route parse_body (client_sent [empty_object])
                  empty_object [] [] "question: field required" (VStr "")
                  eq_refl eq_refl eq_refl eq_refl)).
  reflexivity.
Defined.

(** [parse] over HTTP, asked for the number in [42]. *)
Lemma http_route_answers_witness :
  fst (_create_http_route Pydantic.validate int parse_body
         {[ "text" := VStr "42" ]} ∅ (client_sent []))
  = Returned (mkOutput (VInt 42) "" "").
Proof.
  apply (proj1 (http_route_answers Pydantic.validate int parse_body
                  {[ "text" := VStr "42" ]} ∅ (client_sent []) (client_sent []))
               (Value (VInt 42)) (VInt 42)).
  - reflexivity.
  - reflexivity.
Defined.

(** [shout] over HTTP: its two lines are captured, the handler's
    [Error:] line is not. *)
Lemma http_route_process_stdout_witness :
  sys_stdout (snd (_create_http_route Pydantic.validate str shout_body ∅ ∅ (client_sent [])))
  = ["Error: no voice"].
Proof.
  apply (proj2 (http_route_process_stdout Pydantic.validate str shout_body ∅ ∅
                  (client_sent []) (World ∅ ["one"; "two"] [] [] false))
               (Exn true "RuntimeError" "no voice")).
  - reflexivity.
  - reflexivity.
Defined.
